(** * Message Store Service: a shallow embedding of the Fastify CRUD server

    The server keeps an in-memory [Map<string, Message>] and a numeric
    [idCounter]; five routes create, list, read, update and delete
    messages.  Node runs each handler to completion (the handlers contain
    no [await]), so a handler is modelled as a function from the state
    before the request to a completion and the state after it.

    Strings are sequences of UTF-16 code units, a request body is a
    JavaScript value (so that a missing body, a missing property and a
    property of the wrong type can all be expressed), the [Map] is an
    association list in insertion order, and each request is given what it
    reads from the clock.  [idCounter] is a JavaScript number: its
    increment is exact up to 2^53 and stays there afterwards.

    Layout: the definitions (JavaScript values and built-ins, the insertion
    ordered map, the handlers, runs of requests) come first, the lemmas and
    theorems follow. *)

From Stdlib Require Import String Ascii.
From Stdlib Require Import List ZArith NArith Lia Bool.
From Stdlib Require Import DecimalN DecimalZ.
From Stdlib Require Import Floats.SpecFloat.
Import ListNotations.

Local Open Scope N_scope.

Set Warnings "-register-all".

(* ===================================================================== *)
(** ** JavaScript strings *)
(* ===================================================================== *)

(** A JavaScript string is a sequence of UTF-16 code units. *)
Definition jsstring : Type := list N.

(** An ASCII literal of the source, as code units. *)
Definition lit (s : string) : jsstring :=
  map N_of_ascii (list_ascii_of_string s).

Definition jsstring_eq_dec : forall a b : jsstring, {a = b} + {a <> b} :=
  list_eq_dec N.eq_dec.

(** [WhiteSpace] and [LineTerminator] of ECMAScript, the code points that
    [String.prototype.trim] strips: TAB, LF, VT, FF, CR, SPACE, NBSP, the
    other space separators (category Zs), LS, PS and the BOM.  All of them
    are in the basic plane, so the test is on single code units. *)
Definition isWhiteSpace (c : N) : bool :=
  (c =? 9) || (c =? 10) || (c =? 11) || (c =? 12) || (c =? 13) ||
  (c =? 32) || (c =? 160) || (c =? 5760) ||
  ((8192 <=? c) && (c <=? 8202)) ||
  (c =? 8232) || (c =? 8233) || (c =? 8239) || (c =? 8287) ||
  (c =? 12288) || (c =? 65279).

Fixpoint trimStart (s : jsstring) : jsstring :=
  match s with
  | [] => []
  | c :: r => if isWhiteSpace c then trimStart r else s
  end.

Definition trimEnd (s : jsstring) : jsstring := rev (trimStart (rev s)).

(** [s.trim()] *)
Definition trim (s : jsstring) : jsstring := trimEnd (trimStart s).

(** [s === ''] *)
Definition isEmpty (s : jsstring) : bool :=
  match s with [] => true | _ :: _ => false end.

(* ===================================================================== *)
(** ** Numbers printed by a template literal *)
(* ===================================================================== *)

Definition digit (d : N) : N := 48 + d.

Fixpoint uint_units (u : Decimal.uint) : jsstring :=
  match u with
  | Decimal.Nil => []
  | Decimal.D0 r => digit 0 :: uint_units r
  | Decimal.D1 r => digit 1 :: uint_units r
  | Decimal.D2 r => digit 2 :: uint_units r
  | Decimal.D3 r => digit 3 :: uint_units r
  | Decimal.D4 r => digit 4 :: uint_units r
  | Decimal.D5 r => digit 5 :: uint_units r
  | Decimal.D6 r => digit 6 :: uint_units r
  | Decimal.D7 r => digit 7 :: uint_units r
  | Decimal.D8 r => digit 8 :: uint_units r
  | Decimal.D9 r => digit 9 :: uint_units r
  end.

(** The code unit of ['-']. *)
Definition hyphen : N := 45.

(** [`${n}`] for a non-negative integer below 10^21 (the counter never
    exceeds 2^53): its decimal digits. *)
Definition string_of_N (n : N) : jsstring := uint_units (N.to_uint n).

(** [`${z}`] for an integer of magnitude below 10^21 (a time value is at
    most 8.64e15 in magnitude): an optional sign and the decimal digits. *)
Definition string_of_Z (z : Z) : jsstring :=
  match Z.to_int z with
  | Decimal.Pos u => uint_units u
  | Decimal.Neg u => hyphen :: uint_units u
  end.

(** 2^53: up to here every integer is a double, and [2^53 + 1] is not. *)
Definition two53 : N := 9007199254740992.

(** [n + 1] on a JavaScript number holding an integer of [0 .. 2^53], the
    values [idCounter] takes.  Below 2^53 the sum is exact; 2^53 + 1 lies
    half way between two doubles and rounds to the even one, 2^53. *)
Definition number_succ (n : N) : N :=
  if n <? two53 then n + 1 else n.

(* ===================================================================== *)
(** ** JavaScript values reaching a handler *)
(* ===================================================================== *)

(** What the body parser can put in [request.body] and its properties:
    [undefined] (nothing there) and the JSON values. *)
Inductive Value : Type :=
| VUndefined
| VNull
| VBoolean (b : bool)
| VNumber (x : spec_float)
| VString (s : jsstring)
| VArray (elems : list Value)
| VObject (props : list (jsstring * Value)).

Inductive JsType : Type :=
| TyUndefined | TyObject | TyBoolean | TyNumber | TyString.

(** [typeof v] *)
Definition typeof (v : Value) : JsType :=
  match v with
  | VUndefined => TyUndefined
  | VNull => TyObject
  | VBoolean _ => TyBoolean
  | VNumber _ => TyNumber
  | VString _ => TyString
  | VArray _ => TyObject
  | VObject _ => TyObject
  end.

Definition isTyString (t : JsType) : bool :=
  match t with TyString => true | _ => false end.

(** [ToBoolean v]: [undefined], [null], [false], zeros, NaN and the empty
    string are falsy. *)
Definition ToBoolean (v : Value) : bool :=
  match v with
  | VUndefined => false
  | VNull => false
  | VBoolean b => b
  | VNumber (S754_zero _) => false
  | VNumber S754_nan => false
  | VNumber _ => true
  | VString s => negb (isEmpty s)
  | VArray _ => true
  | VObject _ => true
  end.

Fixpoint getOwn (k : jsstring) (props : list (jsstring * Value)) : Value :=
  match props with
  | [] => VUndefined
  | (k', v) :: r => if jsstring_eq_dec k k' then v else getOwn k r
  end.

Inductive Error : Type :=
| TypeError.

(** [const { content } = v]: destructuring [undefined] or [null] throws a
    TypeError; an object yields its property or [undefined]; a boolean,
    number, string or array has no property of that name. *)
Definition destructure_content (v : Value) : Error + Value :=
  match v with
  | VUndefined => inl TypeError
  | VNull => inl TypeError
  | VObject props => inr (getOwn (lit "content") props)
  | VBoolean _ => inr VUndefined
  | VNumber _ => inr VUndefined
  | VString _ => inr VUndefined
  | VArray _ => inr VUndefined
  end.

(* ===================================================================== *)
(** ** [Map<string, V>]: keyed, iterated in insertion order *)
(* ===================================================================== *)

Module JSMap.
Section WithValue.
Context {V : Type}.

Definition t : Type := list (jsstring * V).

  (** [new Map()] *)
Definition empty : t := [].

  (** [m.get(k)], [None] for [undefined]. *)
Fixpoint get (k : jsstring) (m : t) : option V :=
    match m with
    | [] => None
    | (k', v) :: r => if jsstring_eq_dec k k' then Some v else get k r
    end.

  (** [m.set(k, v)]: a present key keeps its place and takes the new
      value, a new key goes to the end. *)
Fixpoint set (k : jsstring) (v : V) (m : t) : t :=
    match m with
    | [] => [(k, v)]
    | (k', v') :: r =>
        if jsstring_eq_dec k k' then (k, v) :: r else (k', v') :: set k v r
    end.

  (** [m.delete(k)]: no entry under [k] is left. *)
Fixpoint delete (k : jsstring) (m : t) : t :=
    match m with
    | [] => []
    | (k', v') :: r =>
        if jsstring_eq_dec k k' then delete k r else (k', v') :: delete k r
    end.

  (** [Array.from(m.values())] *)
Definition values (m : t) : list V := map snd m.

Definition keys (m : t) : list jsstring := map fst m.

  (** [m.size] *)
Definition size (m : t) : nat := length m.
End WithValue.
Arguments t : clear implicits.
End JSMap.

(* ===================================================================== *)
(** ** The server state and its replies *)
(* ===================================================================== *)

(** [interface Message].  The [content] field holds the value taken from
    the request body as it is. *)
Record Message : Type := mkMessage {
  id : jsstring;
  content : Value;
  createdAt : jsstring;
  updatedAt : jsstring
}.

(** The two module-level variables: [messages] and [idCounter]. *)
Record State : Type := mkState {
  messages : JSMap.t Message;
  idCounter : N
}.

(** The state when the process starts. *)
Definition init : State :=
  {| messages := JSMap.empty; idCounter := 0 |}.

(** What a request observes of the clock: [Date.now()] in milliseconds and
    the string [new Date().toISOString()]. *)
Record Clock : Type := mkClock {
  Date_now : Z;
  toISOString : jsstring
}.

(** What a handler returns. *)
Inductive Payload : Type :=
| PHello                          (* { hello: 'world' } *)
| PError (error : jsstring)       (* { error: ... } *)
| POne (m : Message)
| PAll (ms : list Message)
| PNothing.                       (* return without a value *)

(** A handler either returns a payload under the status set with
    [reply.code] (200 when it sets none) or throws. *)
Inductive Completion : Type :=
| Reply (code : N) (body : Payload)
| Throw (e : Error).

(** The status the caller sees: Fastify answers an error thrown by a
    handler that carries no status of its own with 500. *)
Definition statusCode (c : Completion) : N :=
  match c with
  | Reply code _ => code
  | Throw _ => 500
  end.

Definition contentRequired : jsstring :=
  lit "Content is required and must be a non-empty string".

Definition notFound : jsstring := lit "Message not found".

(** [!content || typeof content !== 'string' || content.trim() === ''].
    The last operand is evaluated for strings only. *)
Definition rejected (content : Value) : bool :=
  negb (ToBoolean content)
  || negb (isTyString (typeof content))
  || match content with
     | VString s => isEmpty (trim s)
     | _ => false
     end.

(** [`${Date.now()}-${idCounter}`] *)
Definition make_id (now : Z) (counter : N) : jsstring :=
  string_of_Z now ++ hyphen :: string_of_N counter.

(* ===================================================================== *)
(** ** The handlers *)
(* ===================================================================== *)

(** GET / *)
Definition get_root (st : State) : Completion * State :=
  (Reply 200 PHello, st).

(** CREATE - POST /messages *)
Definition post_messages (clk : Clock) (body : Value) (st : State)
  : Completion * State :=
  match destructure_content body with
  | inl e => (Throw e, st)
  | inr c =>
      if rejected c then (Reply 400 (PError contentRequired), st)
      else
        let i := make_id (Date_now clk) (idCounter st) in
        let timestamp := toISOString clk in
        let message :=
          {| id := i; content := c;
             createdAt := timestamp; updatedAt := timestamp |} in
        (Reply 201 (POne message),
         {| messages := JSMap.set i message (messages st);
            idCounter := number_succ (idCounter st) |})
  end.

(** READ ALL - GET /messages *)
Definition get_messages (st : State) : Completion * State :=
  (Reply 200 (PAll (JSMap.values (messages st))), st).

(** READ ONE - GET /messages/:id *)
Definition get_message (i : jsstring) (st : State) : Completion * State :=
  match JSMap.get i (messages st) with
  | None => (Reply 404 (PError notFound), st)
  | Some message => (Reply 200 (POne message), st)
  end.

(** UPDATE - PUT /messages/:id *)
Definition put_message (clk : Clock) (i : jsstring) (body : Value)
  (st : State) : Completion * State :=
  match destructure_content body with
  | inl e => (Throw e, st)
  | inr c =>
      if rejected c then (Reply 400 (PError contentRequired), st)
      else
        match JSMap.get i (messages st) with
        | None => (Reply 404 (PError notFound), st)
        | Some message =>
            let updatedMessage :=
              {| id := id message; content := c;
                 createdAt := createdAt message;
                 updatedAt := toISOString clk |} in
            (Reply 200 (POne updatedMessage),
             {| messages := JSMap.set i updatedMessage (messages st);
                idCounter := idCounter st |})
        end
  end.

(** DELETE - DELETE /messages/:id *)
Definition delete_message (i : jsstring) (st : State) : Completion * State :=
  match JSMap.get i (messages st) with
  | None => (Reply 404 (PError notFound), st)
  | Some _ =>
      (Reply 204 PNothing,
       {| messages := JSMap.delete i (messages st);
          idCounter := idCounter st |})
  end.

(* ===================================================================== *)
(** ** Requests and runs *)
(* ===================================================================== *)

Inductive Request : Type :=
| GET_root
| POST_messages (body : Value)
| GET_messages
| GET_message (i : jsstring)
| PUT_message (i : jsstring) (body : Value)
| DELETE_message (i : jsstring).

(** The router: one handler per method and path. *)
Definition handle (clk : Clock) (req : Request) (st : State)
  : Completion * State :=
  match req with
  | GET_root => get_root st
  | POST_messages body => post_messages clk body st
  | GET_messages => get_messages st
  | GET_message i => get_message i st
  | PUT_message i body => put_message clk i body st
  | DELETE_message i => delete_message i st
  end.

(** A run: requests served one after the other, each with its own reading
    of the clock. *)
Definition Trace : Type := list (Clock * Request).

Fixpoint run (tr : Trace) (st : State) : State :=
  match tr with
  | [] => st
  | (clk, req) :: rest => run rest (snd (handle clk req st))
  end.

(** The completions of a run, in order. *)
Fixpoint completions (tr : Trace) (st : State) : list Completion :=
  match tr with
  | [] => []
  | (clk, req) :: rest =>
      fst (handle clk req st) :: completions rest (snd (handle clk req st))
  end.

(** The states the server can be in. *)
Inductive reachable : State -> Prop :=
| reachable_init : reachable init
| reachable_step : forall clk req st,
    reachable st -> reachable (snd (handle clk req st)).

(** Successful creates answer 201, successful deletes 204; no other route
    uses either status. *)
Definition isCreated (c : Completion) : bool :=
  match c with Reply 201 _ => true | _ => false end.

Definition isDeleted (c : Completion) : bool :=
  match c with Reply 204 _ => true | _ => false end.

Definition creates (tr : Trace) (st : State) : nat :=
  length (filter isCreated (completions tr st)).

Definition deletes (tr : Trace) (st : State) : nat :=
  length (filter isDeleted (completions tr st)).

(** The ids the generator issued during a run: one per message created. *)
Fixpoint issued (cs : list Completion) : list jsstring :=
  match cs with
  | [] => []
  | Reply 201 (POne m) :: rest => id m :: issued rest
  | _ :: rest => issued rest
  end.

(* ===================================================================== *)
(** ** Predicates used by the statements *)
(* ===================================================================== *)

(** The content is missing, not a string, or empty after trimming. *)
Definition invalidContent (c : Value) : Prop :=
  c = VUndefined \/ typeof c <> TyString \/
  exists s, c = VString s /\ trim s = [].

(** Empty or made of white space only. *)
Definition blank (s : jsstring) : bool := forallb isWhiteSpace s.

(** A reply with status 400 and a non-empty [error] string. *)
Definition isValidationError (c : Completion) : Prop :=
  exists e, c = Reply 400 (PError e) /\ e <> [].

(** A reply with status 404 and an [error] string. *)
Definition isNotFoundError (c : Completion) : Prop :=
  exists e, c = Reply 404 (PError e).

(** The test [k' !== k] on keys. *)
Definition other (k k' : jsstring) : bool :=
  if jsstring_eq_dec k k' then false else true.

(** [messages.has(i)] *)
Definition present (st : State) (i : jsstring) : bool :=
  match JSMap.get i (messages st) with Some _ => true | None => false end.

(** The store invariant the generator maintains while it has issued at most
    2^53 ids: keys are distinct, a message is stored under its own id, and
    every key was built from a counter value below the current one. *)
Definition store_ok (st : State) : Prop :=
  NoDup (JSMap.keys (messages st)) /\
  forall k m, In (k, m) (messages st) ->
    id m = k /\ exists now c, k = make_id now c /\ c < idCounter st.

(** Keys are distinct and a message is stored under its own id. *)
Definition keyed (st : State) : Prop :=
  NoDup (JSMap.keys (messages st)) /\
  forall k m, In (k, m) (messages st) -> id m = k.

(** Every stored content is a string with a character that is not white
    space. *)
Definition contents_ok (st : State) : Prop :=
  forall k m, In (k, m) (messages st) ->
    exists s, content m = VString s /\ s <> [] /\ blank s = false
              /\ trim s <> [].

(** What one request does to the state, by the kind of its completion:
    nothing, or one [set] of a new message, one [set] of an updated
    message, one [delete]. *)
Inductive Effect (st : State) : Completion -> State -> Prop :=
| Unchanged : forall c,
    isCreated c = false -> isDeleted c = false -> Effect st c st
| Created : forall clk c m,
    rejected c = false ->
    m = {| id := make_id (Date_now clk) (idCounter st); content := c;
           createdAt := toISOString clk; updatedAt := toISOString clk |} ->
    Effect st (Reply 201 (POne m))
      {| messages := JSMap.set (id m) m (messages st);
         idCounter := number_succ (idCounter st) |}
| Updated : forall clk i c old m,
    rejected c = false ->
    JSMap.get i (messages st) = Some old ->
    m = {| id := id old; content := c;
           createdAt := createdAt old; updatedAt := toISOString clk |} ->
    Effect st (Reply 200 (POne m))
      {| messages := JSMap.set i m (messages st);
         idCounter := idCounter st |}
| Deleted : forall i old,
    JSMap.get i (messages st) = Some old ->
    Effect st (Reply 204 PNothing)
      {| messages := JSMap.delete i (messages st);
         idCounter := idCounter st |}.

(** The bookkeeping of a run from the initial state: the counter equals
    the number of ids issued (capped at 2^53), the ids issued carry the
    counter values below that number and are distinct, the keys of the
    store are the issued ids still present, in the order of issue, and the
    size of the store is the number of creates less the number of
    deletes. *)
Definition ledger (tr : Trace) : Prop :=
  let st := run tr init in
  let ids := issued (completions tr init) in
  idCounter st = N.min (N.of_nat (length ids)) two53
  /\ (forall i, In i ids ->
        exists now c, i = make_id now c /\ c < N.of_nat (length ids))
  /\ NoDup ids
  /\ JSMap.keys (messages st) = filter (present st) ids
  /\ (forall k m, In (k, m) (messages st) -> id m = k)
  /\ length ids = creates tr init
  /\ (JSMap.size (messages st) + deletes tr init = creates tr init)%nat.

(** Sample data for the examples. *)
Definition noon : Clock :=
  {| Date_now := 1700000000000%Z;
     toISOString := lit "2023-11-14T22:13:20.000Z" |}.

Definition later : Clock :=
  {| Date_now := 1700000000010%Z;
     toISOString := lit "2023-11-14T22:13:20.010Z" |}.

Definition withContent (v : Value) : Value :=
  VObject [(lit "content", v)].

Definition hello : Value := withContent (VString (lit "Hello, World!")).

Definition firstId : jsstring := make_id (Date_now noon) 0.

(** The state after one create at [noon]. *)
Definition one_message : State := snd (post_messages noon hello init).

(** The state after that message is deleted again. *)
Definition after_delete : State := snd (delete_message firstId one_message).

(** Two creates, then a delete of the first message. *)
Definition two_creates_one_delete : Trace :=
  [(noon, POST_messages hello);
   (later, POST_messages (withContent (VString (lit "Second message"))));
   (later, DELETE_message firstId)].



(* ===================================================================== *)
(** ** Further predicates: reads, the shape of ids *)
(* ===================================================================== *)

(** The three GET routes. *)
Definition isRead (req : Request) : bool :=
  match req with
  | GET_root => true
  | GET_messages => true
  | GET_message _ => true
  | POST_messages _ => false
  | PUT_message _ _ => false
  | DELETE_message _ => false
  end.

(** A run without its GET requests. *)
Definition writes (tr : Trace) : Trace :=
  filter (fun x => negb (isRead (snd x))) tr.

(** A decimal digit or a hyphen: the code units a generated id is made
    of. *)
Definition isIdUnit (c : N) : bool :=
  (c =? hyphen) || ((48 <=? c) && (c <=? 57)).

(** Every key of the store was built by the generator. *)
Definition generated_keys (st : State) : Prop :=
  forall k, In k (JSMap.keys (messages st)) ->
    exists now c, k = make_id now c.

(** A body that [const { content } = request.body] cannot destructure. *)
Definition nullish (v : Value) : Prop := v = VUndefined \/ v = VNull.

(* ===================================================================== *)
(** ** Facts about strings *)
(* ===================================================================== *)

Section Strings.

Lemma trimStart_nil_iff (s : jsstring) :
    trimStart s = [] <-> blank s = true.
Proof.
    unfold blank.
    induction s as [|c r IH]; simpl.
    - tauto.
    - destruct (isWhiteSpace c); simpl.
      + exact IH.
      + split; discriminate.
Qed.

Lemma blank_rev (s : jsstring) : blank (rev s) = blank s.
Proof.
    unfold blank.
    induction s as [|c r IH]; simpl; [reflexivity|].
    rewrite forallb_app, IH. simpl.
    rewrite andb_true_r. apply andb_comm.
Qed.

  (** What [trimStart] leaves is blank only if it is empty. *)
Lemma blank_trimStart (s : jsstring) : blank (trimStart s) = blank s.
Proof.
    unfold blank.
    induction s as [|c r IH]; simpl; [reflexivity|].
    destruct (isWhiteSpace c) eqn:E; simpl.
    - exact IH.
    - rewrite E. reflexivity.
Qed.

Lemma trim_nil_iff (s : jsstring) : trim s = [] <-> blank s = true.
Proof.
    unfold trim, trimEnd.
    rewrite <- (blank_trimStart s), <- (blank_rev (trimStart s)).
    rewrite <- trimStart_nil_iff.
    split; intros H.
    - apply (f_equal (@rev N)) in H. rewrite rev_involutive in H. exact H.
    - rewrite H. reflexivity.
Qed.

Lemma isEmpty_false_iff (s : jsstring) : isEmpty s = false <-> s <> [].
Proof. destruct s; simpl; split; congruence. Qed.

Lemma blank_false_nonempty (s : jsstring) : blank s = false -> s <> [].
Proof. intros H ->. discriminate H. Qed.

Lemma trim_nonempty_iff (s : jsstring) : trim s <> [] <-> blank s = false.
Proof.
    rewrite trim_nil_iff. destruct (blank s); split; congruence.
Qed.

End Strings.

(* ===================================================================== *)
(** ** Facts about the validation test *)
(* ===================================================================== *)

Section Validation.

Lemma rejected_false_iff (c : Value) :
    rejected c = false <-> exists s, c = VString s /\ trim s <> [].
Proof.
    split.
    - destruct c as [| |b|x|s|l|p]; unfold rejected; simpl;
        try discriminate;
        try (rewrite orb_true_r; discriminate).
      rewrite orb_false_r, negb_involutive.
      intros H. apply orb_false_iff in H as [_ H].
      exists s. split; [reflexivity|]. now apply isEmpty_false_iff.
    - intros (s & -> & H). unfold rejected; simpl.
      rewrite orb_false_r, negb_involutive.
      apply orb_false_iff. split.
      + apply isEmpty_false_iff. intros ->. now apply H.
      + now apply isEmpty_false_iff.
Qed.

Lemma rejected_true_iff (c : Value) :
    rejected c = true <-> invalidContent c.
Proof.
    unfold invalidContent. split.
    - intros H.
      destruct c as [| |b|x|s|l|p];
        try (right; left; simpl; discriminate).
      right; right. exists s. split; [reflexivity|].
      destruct (trim s) eqn:E; [reflexivity|].
      assert (R : rejected (VString s) = false).
      { apply rejected_false_iff. exists s. split; [reflexivity|].
        rewrite E. discriminate. }
      congruence.
    - intros [-> | [H | (s & -> & H)]].
      + reflexivity.
      + destruct (rejected c) eqn:R; [reflexivity|].
        apply rejected_false_iff in R as (s & -> & _).
        now elim H.
      + destruct (rejected (VString s)) eqn:R; [reflexivity|].
        apply rejected_false_iff in R as (s' & E & R).
        injection E as <-. now elim R.
Qed.

End Validation.

(* ===================================================================== *)
(** ** Facts about generated ids *)
(* ===================================================================== *)

Section Ids.

Lemma uint_units_no_hyphen (u : Decimal.uint) : ~ In hyphen (uint_units u).
Proof.
    induction u; simpl; intros H;
      try (destruct H as [H | H]; [discriminate H | now apply IHu]).
    exact H.
Qed.

Lemma uint_units_inj (u v : Decimal.uint) :
    uint_units u = uint_units v -> u = v.
Proof.
    revert v. induction u; intros v H; destruct v; simpl in H;
      try reflexivity; try discriminate H;
      injection H as H; f_equal; now apply IHu.
Qed.

Lemma string_of_N_inj (a b : N) : string_of_N a = string_of_N b -> a = b.
Proof.
    unfold string_of_N. intros H.
    apply Unsigned.to_uint_inj. now apply uint_units_inj.
Qed.

  (** A string is cut at its last hyphen in one way only. *)
Lemma cut_at_last (h : N) (a1 a2 b1 b2 : list N) :
    ~ In h b1 -> ~ In h b2 ->
    a1 ++ h :: b1 = a2 ++ h :: b2 -> a1 = a2 /\ b1 = b2.
Proof.
    intros H1 H2. revert a2.
    induction a1 as [|x a1 IH]; intros [|y a2] E; simpl in E.
    - injection E as E. now split.
    - injection E as <- E. elim H1. rewrite E. apply in_or_app.
      right; now left.
    - injection E as -> E. elim H2. rewrite <- E. apply in_or_app.
      right; now left.
    - injection E as -> E. destruct (IH _ E) as [-> ->]. now split.
Qed.

Lemma make_id_counter_inj (t1 t2 : Z) (c1 c2 : N) :
    make_id t1 c1 = make_id t2 c2 -> c1 = c2.
Proof.
    unfold make_id. intros E.
    apply cut_at_last in E; try apply uint_units_no_hyphen.
    destruct E as [_ E]. now apply string_of_N_inj.
Qed.

Lemma number_succ_le (n : N) : n <= number_succ n.
Proof. unfold number_succ. destruct (n <? two53); lia. Qed.

Lemma number_succ_below (n : N) : n < two53 -> number_succ n = n + 1.
Proof.
    unfold number_succ. intros H.
    apply N.ltb_lt in H. now rewrite H.
Qed.

Lemma number_succ_saturated : number_succ two53 = two53.
Proof. reflexivity. Qed.

End Ids.

(* ===================================================================== *)
(** ** Facts about the map *)
(* ===================================================================== *)

Module JSMapFacts.
Section WithValue.
Context {V : Type}.
Implicit Types (k : jsstring) (v : V) (m : JSMap.t V).

Ltac key_cases :=
    repeat match goal with
    | |- context [jsstring_eq_dec ?a ?b] =>
        destruct (jsstring_eq_dec a b); subst; simpl
    | H : context [jsstring_eq_dec ?a ?b] |- _ =>
        destruct (jsstring_eq_dec a b); subst; simpl in H
    end.

Lemma get_none_iff k m : JSMap.get k m = None <-> ~ In k (JSMap.keys m).
Proof.
    induction m as [|[k' v'] r IH]; simpl.
    - tauto.
    - key_cases.
      + split; [discriminate | intros H; elim H; now left].
      + rewrite IH. split; [intros H [E | E]; congruence | tauto].
Qed.

Lemma get_in k v m : JSMap.get k m = Some v -> In (k, v) m.
Proof.
    induction m as [|[k' v'] r IH]; simpl; [discriminate|].
    key_cases; intros H.
    - injection H as ->. now left.
    - right. now apply IH.
Qed.

Lemma in_keys k v m : In (k, v) m -> In k (JSMap.keys m).
Proof. intros H. apply (in_map fst) in H. exact H. Qed.

Lemma get_set_same k v m : JSMap.get k (JSMap.set k v m) = Some v.
Proof.
    induction m as [|[k' v'] r IH]; simpl; key_cases; congruence.
Qed.

Lemma get_set_other k k' v m :
    k' <> k -> JSMap.get k' (JSMap.set k v m) = JSMap.get k' m.
Proof.
    intros NE. induction m as [|[k0 v0] r IH]; simpl; key_cases;
      congruence.
Qed.

  (** A new key goes to the end. *)
Lemma set_absent k v m :
    JSMap.get k m = None -> JSMap.set k v m = m ++ [(k, v)].
Proof.
    induction m as [|[k' v'] r IH]; simpl; [reflexivity|].
    key_cases; [discriminate|]. intros H. now rewrite IH.
Qed.

  (** A present key keeps its place. *)
Lemma keys_set_present k v v0 m :
    JSMap.get k m = Some v0 -> JSMap.keys (JSMap.set k v m) = JSMap.keys m.
Proof.
    unfold JSMap.keys.
    induction m as [|[k' v'] r IH]; simpl; [discriminate|].
    key_cases; [reflexivity|]. intros H. f_equal. now apply IH.
Qed.

Lemma keys_set_absent k v m :
    JSMap.get k m = None ->
    JSMap.keys (JSMap.set k v m) = JSMap.keys m ++ [k].
Proof.
    intros H. rewrite (set_absent _ _ _ H).
    unfold JSMap.keys. now rewrite map_app.
Qed.

Lemma in_set k v k' v' m :
    In (k', v') (JSMap.set k v m) -> (k', v') = (k, v) \/ In (k', v') m.
Proof.
    induction m as [|[k0 v0] r IH]; simpl.
    - intros [E | []]. now left.
    - key_cases; intros [E | H]; auto.
      destruct (IH H); auto.
Qed.

Lemma NoDup_snoc (A : Type) (l : list A) (x : A) :
    NoDup l -> ~ In x l -> NoDup (l ++ [x]).
Proof.
    intros ND NI. induction ND as [|y l NY ND IH]; simpl.
    - constructor; [tauto | constructor].
    - constructor.
      + rewrite in_app_iff. intros [H | [-> | []]]; [tauto|].
        apply NI. now left.
      + apply IH. intros H. apply NI. now right.
Qed.

Lemma NoDup_keys_set k v m :
    NoDup (JSMap.keys m) -> NoDup (JSMap.keys (JSMap.set k v m)).
Proof.
    intros ND. destruct (JSMap.get k m) as [v0|] eqn:G.
    - now rewrite (keys_set_present _ _ _ _ G).
    - rewrite (keys_set_absent _ _ _ G).
      apply NoDup_snoc; [exact ND | now apply get_none_iff].
Qed.

Lemma size_set_present k v v0 m :
    JSMap.get k m = Some v0 -> JSMap.size (JSMap.set k v m) = JSMap.size m.
Proof.
    intros G. unfold JSMap.size.
    rewrite <- (length_map fst (JSMap.set k v m)), <- (length_map fst m).
    fold (JSMap.keys (JSMap.set k v m)). fold (JSMap.keys m).
    now rewrite (keys_set_present _ _ _ _ G).
Qed.

Lemma keys_delete k m :
    JSMap.keys (JSMap.delete k m) = filter (other k) (JSMap.keys m).
Proof.
    unfold JSMap.keys, other.
    induction m as [|[k' v'] r IH]; simpl; [reflexivity|].
    key_cases; [exact IH | now f_equal].
Qed.

Lemma get_delete_same k m : JSMap.get k (JSMap.delete k m) = None.
Proof.
    induction m as [|[k' v'] r IH]; simpl; [reflexivity|].
    key_cases; [exact IH | congruence | exact IH].
Qed.

Lemma get_delete_other k k' m :
    k' <> k -> JSMap.get k' (JSMap.delete k m) = JSMap.get k' m.
Proof.
    intros NE. induction m as [|[k0 v0] r IH]; simpl; [reflexivity|].
    key_cases; congruence.
Qed.

Lemma in_delete k k' v' m :
    In (k', v') (JSMap.delete k m) -> k' <> k /\ In (k', v') m.
Proof.
    induction m as [|[k0 v0] r IH]; simpl; [tauto|].
    key_cases.
    - intros H. destruct (IH H). auto.
    - intros [E | H].
      + injection E as <- <-. split; [congruence | now left].
      + destruct (IH H). auto.
Qed.

Lemma NoDup_keys_delete k m :
    NoDup (JSMap.keys m) -> NoDup (JSMap.keys (JSMap.delete k m)).
Proof. intros ND. rewrite keys_delete. now apply NoDup_filter. Qed.

  (** Deleting a present key of a well-formed map removes one entry. *)
Lemma size_delete_present k v m :
    NoDup (JSMap.keys m) -> JSMap.get k m = Some v ->
    S (JSMap.size (JSMap.delete k m)) = JSMap.size m.
Proof.
    unfold JSMap.size.
    induction m as [|[k' v'] r IH]; simpl; [discriminate|].
    intros ND G. inversion ND as [|? ? N1 N2]; subst.
    key_cases.
    - f_equal.
      assert (E : JSMap.delete k' r = r); [|now rewrite E].
      clear - N1. induction r as [|[k0 v0] r IH]; simpl; [reflexivity|].
      simpl in N1. key_cases; [tauto|]. f_equal. apply IH. tauto.
    - f_equal. now apply IH.
Qed.


End WithValue.
End JSMapFacts.

(* ===================================================================== *)
(** ** One request *)
(* ===================================================================== *)

Section Steps.

Lemma post_effect clk body st :
    Effect st (fst (post_messages clk body st))
              (snd (post_messages clk body st)).
Proof.
    unfold post_messages.
    destruct (destructure_content body) as [e | c]; simpl.
    - now constructor.
    - destruct (rejected c) eqn:R; simpl.
      + now constructor.
      + now apply Created with (clk := clk) (c := c).
Qed.

Lemma put_effect clk i body st :
    Effect st (fst (put_message clk i body st))
              (snd (put_message clk i body st)).
Proof.
    unfold put_message.
    destruct (destructure_content body) as [e | c]; simpl.
    - now constructor.
    - destruct (rejected c) eqn:R; simpl.
      + now constructor.
      + destruct (JSMap.get i (messages st)) as [old|] eqn:G; simpl.
        * now apply Updated with (clk := clk) (c := c) (old := old).
        * now constructor.
Qed.

Lemma delete_effect i st :
    Effect st (fst (delete_message i st)) (snd (delete_message i st)).
Proof.
    unfold delete_message.
    destruct (JSMap.get i (messages st)) as [old|] eqn:G; simpl.
    - now apply Deleted with (old := old).
    - now constructor.
Qed.

Lemma handle_effect clk req st :
    Effect st (fst (handle clk req st)) (snd (handle clk req st)).
Proof.
    destruct req as [|body| |i|i body|i]; simpl.
    - now constructor.
    - apply post_effect.
    - now constructor.
    - unfold get_message. destruct (JSMap.get i (messages st));
        now constructor.
    - apply put_effect.
    - apply delete_effect.
Qed.

Lemma issued_other code p (l : list Completion) :
    code <> 201 -> issued (Reply code p :: l) = issued l.
Proof.
    intros NE. simpl.
    destruct code as [|q]; [reflexivity|].
    repeat (destruct q as [q|q|]; try reflexivity). now elim NE.
Qed.

Lemma issued_app (a b : list Completion) :
    issued (a ++ b) = issued a ++ issued b.
Proof.
    induction a as [|c a IH]; [reflexivity|].
    change ((c :: a) ++ b) with (c :: (a ++ b)).
    destruct c as [code p | e]; [|exact IH].
    destruct (N.eq_dec code 201) as [-> | NE].
    - destruct p; simpl; try exact IH. now rewrite IH.
    - now rewrite !issued_other.
Qed.

Lemma issued_not_created c :
    isCreated c = false -> issued [c] = [].
Proof.
    destruct c as [code p | e]; [|reflexivity].
    destruct (N.eq_dec code 201) as [-> | NE]; [discriminate|].
    intros _. now apply issued_other.
Qed.

Lemma run_app (a b : Trace) st : run (a ++ b) st = run b (run a st).
Proof.
    revert st. induction a as [|[clk req] a IH]; intros st; simpl;
      [reflexivity | apply IH].
Qed.

Lemma completions_app (a b : Trace) st :
    completions (a ++ b) st = completions a st ++ completions b (run a st).
Proof.
    revert st. induction a as [|[clk req] a IH]; intros st; simpl;
      [reflexivity | now rewrite IH].
Qed.

Lemma reachable_run tr : reachable (run tr init).
Proof.
    induction tr as [|[clk req] tr IH] using rev_ind; simpl.
    - constructor.
    - rewrite run_app. simpl. now constructor.
Qed.

End Steps.

(* ===================================================================== *)
(** ** Runs from the initial state *)
(* ===================================================================== *)

Section Runs.
Import JSMapFacts.

Lemma filter_filter_and (A : Type) (f g : A -> bool) (l : list A) :
    filter f (filter g l) = filter (fun x => f x && g x) l.
Proof.
    induction l as [|x l IH]; simpl; [reflexivity|].
    destruct (g x); simpl.
    - rewrite andb_true_r. destruct (f x); now rewrite IH.
    - now rewrite andb_false_r.
Qed.

Lemma creates_snoc tr clk req :
    creates (tr ++ [(clk, req)]) init =
    (creates tr init +
     if isCreated (fst (handle clk req (run tr init))) then 1 else 0)%nat.
Proof.
    unfold creates. rewrite completions_app, filter_app, length_app. simpl.
    now destruct (isCreated _).
Qed.

Lemma deletes_snoc tr clk req :
    deletes (tr ++ [(clk, req)]) init =
    (deletes tr init +
     if isDeleted (fst (handle clk req (run tr init))) then 1 else 0)%nat.
Proof.
    unfold deletes. rewrite completions_app, filter_app, length_app. simpl.
    now destruct (isDeleted _).
Qed.

Lemma issued_snoc tr clk req :
    issued (completions (tr ++ [(clk, req)]) init) =
    issued (completions tr init) ++ issued [fst (handle clk req (run tr init))].
Proof. now rewrite completions_app, issued_app. Qed.

Lemma ledger_nil : ledger [].
Proof.
    unfold ledger; simpl. repeat split; try reflexivity; try tauto.
    constructor.
Qed.

Lemma ledger_snoc tr clk req :
    N.of_nat (length (issued (completions (tr ++ [(clk, req)]) init))) <= two53 + 1 ->
    ledger tr -> ledger (tr ++ [(clk, req)]).
Proof.
    intros B (L1 & L2 & L3 & L4 & L5 & L6 & L7).
    unfold ledger.
    rewrite run_app, creates_snoc, deletes_snoc. rewrite issued_snoc in *.
    simpl run.
    pose proof (handle_effect clk req (run tr init)) as E.
    set (st := run tr init) in *.
    set (ids := issued (completions tr init)) in *.
    destruct E as [c C D | clk' c m R -> | clk' i c old m R G -> | i old G].
    - rewrite (issued_not_created _ C), app_nil_r in *. rewrite C, D.
      rewrite !Nat.add_0_r. repeat split; assumption.
    - simpl issued in *. simpl isCreated. simpl isDeleted. simpl id.
      rewrite length_app in *. simpl length in *.
      set (i0 := make_id (Date_now clk') (idCounter st)) in *.
      assert (Hc : idCounter st = N.of_nat (length ids))
        by (rewrite L1; apply N.min_l; lia).
      assert (F : ~ In i0 ids).
      { intros H. destruct (L2 _ H) as (t & k & E & Hk).
        apply make_id_counter_inj in E. lia. }
      assert (G : JSMap.get i0 (messages st) = None).
      { apply get_none_iff. rewrite L4. intros H.
        apply filter_In in H. tauto. }
      simpl messages. simpl idCounter.
      split; [|split; [|split; [|split; [|split; [|split]]]]].
      + unfold number_succ. rewrite Hc.
        destruct (N.of_nat (length ids) <? two53) eqn:T.
        * apply N.ltb_lt in T. rewrite N.min_l; lia.
        * apply N.ltb_ge in T. rewrite N.min_r; lia.
      + intros i H. apply in_app_iff in H as [H | [<- | []]].
        * destruct (L2 _ H) as (t & k & E & Hk). exists t, k. split; [exact E | lia].
        * exists (Date_now clk'), (idCounter st). split; [reflexivity | lia].
      + now apply NoDup_snoc.
      + rewrite (keys_set_absent _ _ _ G), filter_app, L4. simpl.
        unfold present at 3. simpl. rewrite get_set_same. f_equal.
        apply filter_ext_in. intros i H. unfold present; simpl.
        rewrite get_set_other; [reflexivity|]. intros ->. now apply F.
      + intros k m H. apply in_set in H as [E | H]; [|now apply L5].
        injection E as -> ->. reflexivity.
      + lia.
      + rewrite (set_absent _ _ _ G). unfold JSMap.size in *.
        rewrite length_app. simpl. lia.
    - simpl issued in *. rewrite app_nil_r in *.
      simpl isCreated. simpl isDeleted. simpl messages. simpl idCounter.
      assert (P : forall k, present {| messages := JSMap.set i
         {| id := id old; content := c; createdAt := createdAt old;
            updatedAt := toISOString clk' |} (messages st);
         idCounter := idCounter st |} k = present st k).
      { intros k. unfold present; simpl.
        destruct (jsstring_eq_dec k i) as [-> | NE].
        - now rewrite get_set_same, G.
        - now rewrite get_set_other. }
      split; [|split; [|split; [|split; [|split; [|split]]]]]; try assumption.
      + rewrite (keys_set_present _ _ _ _ G), L4.
        apply filter_ext. intros k. now rewrite P.
      + intros k m H. apply in_set in H as [E | H]; [|now apply L5].
        injection E as -> ->. simpl. apply L5. now apply get_in.
      + lia.
      + rewrite (size_set_present _ _ _ _ G). lia.
    - simpl issued in *. rewrite app_nil_r in *.
      simpl isCreated. simpl isDeleted. simpl messages. simpl idCounter.
      assert (ND : NoDup (JSMap.keys (messages st)))
        by (rewrite L4; now apply NoDup_filter).
      split; [|split; [|split; [|split; [|split; [|split]]]]]; try assumption.
      + rewrite keys_delete, L4, filter_filter_and.
        apply filter_ext. intros k. unfold present, other; simpl.
        destruct (jsstring_eq_dec i k) as [<- | NE].
        * now rewrite get_delete_same.
        * rewrite get_delete_other; [reflexivity | congruence].
      + intros k m H. apply in_delete in H as [_ H]. now apply L5.
      + lia.
      + pose proof (size_delete_present _ _ _ ND G). lia.
Qed.

Lemma ledger_run tr :
    N.of_nat (length (issued (completions tr init))) <= two53 + 1 -> ledger tr.
Proof.
    induction tr as [|[clk req] tr IH] using rev_ind; intros B.
    - apply ledger_nil.
    - apply ledger_snoc; [exact B|]. apply IH.
      rewrite issued_snoc, length_app in B. lia.
Qed.

End Runs.

(* ===================================================================== *)
(** ** Invariants of the reachable states *)
(* ===================================================================== *)

Section Invariants.
Import JSMapFacts.

Lemma post_accepts clk body c st :
  destructure_content body = inr c -> rejected c = false ->
  post_messages clk body st =
    (Reply 201 (POne {| id := make_id (Date_now clk) (idCounter st);
                        content := c;
                        createdAt := toISOString clk;
                        updatedAt := toISOString clk |}),
     {| messages :=
          JSMap.set (make_id (Date_now clk) (idCounter st))
            {| id := make_id (Date_now clk) (idCounter st);
               content := c;
               createdAt := toISOString clk;
               updatedAt := toISOString clk |} (messages st);
        idCounter := number_succ (idCounter st) |}).
Proof. intros D R. unfold post_messages. now rewrite D, R. Qed.

Lemma post_rejects clk body c st :
  destructure_content body = inr c -> rejected c = true ->
  post_messages clk body st = (Reply 400 (PError contentRequired), st).
Proof. intros D R. unfold post_messages. now rewrite D, R. Qed.

Lemma put_rejects clk i body c st :
  destructure_content body = inr c -> rejected c = true ->
  put_message clk i body st = (Reply 400 (PError contentRequired), st).
Proof. intros D R. unfold put_message. now rewrite D, R. Qed.

Lemma put_missing clk i body c st :
  destructure_content body = inr c -> rejected c = false ->
  JSMap.get i (messages st) = None ->
  put_message clk i body st = (Reply 404 (PError notFound), st).
Proof. intros D R G. unfold put_message. now rewrite D, R, G. Qed.

Lemma put_accepts clk i body c old st :
  destructure_content body = inr c -> rejected c = false ->
  JSMap.get i (messages st) = Some old ->
  put_message clk i body st =
    (Reply 200 (POne {| id := id old; content := c;
                        createdAt := createdAt old;
                        updatedAt := toISOString clk |}),
     {| messages :=
          JSMap.set i {| id := id old; content := c;
                         createdAt := createdAt old;
                         updatedAt := toISOString clk |} (messages st);
        idCounter := idCounter st |}).
Proof. intros D R G. unfold put_message. now rewrite D, R, G. Qed.

Lemma not_invalid_iff c : ~ invalidContent c <-> rejected c = false.
Proof.
  rewrite <- rejected_true_iff. destruct (rejected c); split; congruence.
Qed.

(** The id about to be issued is not a key of a well-formed store. *)
Lemma store_ok_fresh now st :
  store_ok st -> JSMap.get (make_id now (idCounter st)) (messages st) = None.
Proof.
  intros [_ H]. destruct (JSMap.get _ _) as [m|] eqn:G; [|reflexivity].
  apply get_in in G. destruct (H _ _ G) as (_ & t & c & E & L).
  apply make_id_counter_inj in E. lia.
Qed.

Lemma store_ok_init : store_ok init.
Proof. split; [constructor | intros k m []]. Qed.

Lemma keyed_step clk req st : keyed st -> keyed (snd (handle clk req st)).
Proof.
  intros [ND K].
  destruct (handle_effect clk req st)
    as [c C D | clk' c m R -> | clk' i c old m R G -> | i old G].
  - now split.
  - split; simpl.
    + now apply NoDup_keys_set.
    + intros k m H. apply in_set in H as [E | H]; [|now apply K].
      injection E as -> ->. reflexivity.
  - split; simpl.
    + now apply NoDup_keys_set.
    + intros k m H. apply in_set in H as [E | H]; [|now apply K].
      injection E as -> ->. simpl. apply K. now apply get_in.
  - split; simpl.
    + now apply NoDup_keys_delete.
    + intros k m H. apply in_delete in H as [_ H]. now apply K.
Qed.

Lemma reachable_keyed st : reachable st -> keyed st.
Proof.
  induction 1 as [|clk req st R IH].
  - split; [constructor | intros k m []].
  - now apply keyed_step.
Qed.

Lemma accepted_content c :
  rejected c = false ->
  exists s, c = VString s /\ s <> [] /\ blank s = false /\ trim s <> [].
Proof.
  intros R. apply rejected_false_iff in R as (s & -> & T).
  exists s. split; [reflexivity|].
  assert (B : blank s = false) by now apply trim_nonempty_iff.
  split; [now apply blank_false_nonempty | now split].
Qed.

Lemma contents_ok_init : contents_ok init.
Proof. intros k m []. Qed.

Lemma contents_ok_step clk req st :
  contents_ok st -> contents_ok (snd (handle clk req st)).
Proof.
  intros K.
  destruct (handle_effect clk req st)
    as [c C D | clk' c m R -> | clk' i c old m R G -> | i old G];
    [exact K | | | ]; intros k m H; simpl in H.
  - apply in_set in H as [E | H]; [|now apply K with k].
    injection E as -> ->. simpl. now apply accepted_content.
  - apply in_set in H as [E | H]; [|now apply K with k].
    injection E as -> ->. simpl. now apply accepted_content.
  - apply in_delete in H as [_ H]. now apply K with k.
Qed.


Lemma issued_le_created (cs : list Completion) :
  (length (issued cs) <= length (filter isCreated cs))%nat.
Proof.
  induction cs as [|c cs IH]; [apply Nat.le_refl|].
  destruct c as [code p | e]; [|exact IH].
  destruct (N.eq_dec code 201) as [-> | NE].
  - destruct p; simpl; lia.
  - rewrite issued_other by exact NE.
    change (filter isCreated (Reply code p :: cs))
      with (if isCreated (Reply code p)
            then Reply code p :: filter isCreated cs
            else filter isCreated cs).
    destruct (isCreated (Reply code p)); simpl; lia.
Qed.

Lemma ledger_of_creates tr :
  N.of_nat (creates tr init) <= two53 + 1 -> ledger tr.
Proof.
  intros B. apply ledger_run.
  pose proof (issued_le_created (completions tr init)) as L.
  unfold creates in B. lia.
Qed.

(** While at most 2^53 ids have been issued the store invariant holds. *)
Lemma run_store_ok tr :
  N.of_nat (creates tr init) <= two53 -> store_ok (run tr init).
Proof.
  intros B.
  destruct (ledger_of_creates tr) as (L1 & L2 & L3 & L4 & L5 & L6 & L7);
    [lia|].
  split.
  - rewrite L4. now apply NoDup_filter.
  - intros k m H. split; [now apply L5|].
    assert (I : In k (issued (completions tr init))).
    { apply in_keys in H. rewrite L4 in H. now apply filter_In in H. }
    destruct (L2 _ I) as (t & c & E & Hc). exists t, c.
    split; [exact E|]. rewrite L1, L6, N.min_l; lia.
Qed.

(** A key that is absent stays absent as long as no create issues it. *)
Lemma absent_stays tr : forall st i,
  JSMap.get i (messages st) = None ->
  ~ In i (issued (completions tr st)) ->
  JSMap.get i (messages (run tr st)) = None.
Proof.
  induction tr as [|[clk req] tr IH]; intros st i G NI; [exact G|].
  simpl run. simpl completions in NI.
  change (?c :: ?l) with ([c] ++ l) in NI.
  rewrite issued_app, in_app_iff in NI.
  apply IH; [|tauto].
  destruct (handle_effect clk req st)
    as [c C D | clk' c m R -> | clk' j c old m R Gj -> | j old Gj]; simpl.
  - exact G.
  - rewrite get_set_other; [exact G|]. intros ->.
    apply NI. left. now left.
  - rewrite get_set_other; [exact G | congruence].
  - destruct (jsstring_eq_dec i j) as [-> | NE].
    + apply get_delete_same.
    + now rewrite get_delete_other.
Qed.





End Invariants.

(* ===================================================================== *)
(** ** The handlers on sample requests *)
(* ===================================================================== *)

Section Examples.

Example trim_sample : trim (lit "  a b  ") = lit "a b".
Proof. reflexivity. Qed.

Example trim_line_ends : trim [10; 13; 9; 160; 8232] = [].
Proof. reflexivity. Qed.

Example firstId_value : firstId = lit "1700000000000-0".
Proof. reflexivity. Qed.

Example id_before_1970 : make_id (-5)%Z 12 = lit "-5-12".
Proof. reflexivity. Qed.

Example id_at_two53 :
  make_id (Date_now noon) two53 = lit "1700000000000-9007199254740992".
Proof. reflexivity. Qed.

(** POST /messages with [{ content: 'Hello, World!' }] on a fresh server. *)
Example create_hello :
  post_messages noon hello init =
    (Reply 201
       (POne {| id := lit "1700000000000-0";
                content := VString (lit "Hello, World!");
                createdAt := lit "2023-11-14T22:13:20.000Z";
                updatedAt := lit "2023-11-14T22:13:20.000Z" |}),
     {| messages :=
          [(lit "1700000000000-0",
            {| id := lit "1700000000000-0";
               content := VString (lit "Hello, World!");
               createdAt := lit "2023-11-14T22:13:20.000Z";
               updatedAt := lit "2023-11-14T22:13:20.000Z" |})];
        idCounter := 1 |}).
Proof. reflexivity. Qed.

(** POST /messages with [{ content: '' }]. *)
Example create_empty :
  post_messages noon (withContent (VString (lit ""))) init =
    (Reply 400 (PError contentRequired), init).
Proof. reflexivity. Qed.

(** Content that is a number, [null], or an object is rejected as well. *)
Example create_not_a_string :
  fst (post_messages noon (withContent (VNumber (S754_finite false 5 0))) init)
    = Reply 400 (PError contentRequired)
  /\ fst (post_messages noon (withContent VNull) init)
     = Reply 400 (PError contentRequired)
  /\ fst (post_messages noon (withContent (VObject [])) init)
     = Reply 400 (PError contentRequired).
Proof. repeat split. Qed.

(** GET /messages/nonexistent *)
Example get_nonexistent :
  get_message (lit "nonexistent") one_message =
    (Reply 404 (PError notFound), one_message).
Proof. reflexivity. Qed.

(** Two creates and the delete of the first: the second message is left. *)
Example list_after_delete :
  fst (get_messages (run two_creates_one_delete init)) =
    Reply 200
      (PAll [{| id := lit "1700000000010-1";
                content := VString (lit "Second message");
                createdAt := lit "2023-11-14T22:13:20.010Z";
                updatedAt := lit "2023-11-14T22:13:20.010Z" |}]).
Proof. reflexivity. Qed.

End Examples.

(* ===================================================================== *)
(** ** The create operation *)
(* ===================================================================== *)

Section Claims.
Import JSMapFacts.




(* ===================================================================== *)
(** ** The update operation *)
(* ===================================================================== *)

(** C2, the failing input.  An update request that carries no body has no
    content, and the handler's test is written to answer missing content
    with 400 before it looks the id up, as it does for the body [{}].
    The handler destructures the body before that test, so the request
    without a body is not answered with 400: it throws a TypeError and the
    caller sees 500. *)
Lemma update_without_body_is_not_rejected :
  present one_message firstId = true
  /\ put_message later firstId VUndefined one_message
     = (Throw TypeError, one_message)
  /\ statusCode (fst (put_message later firstId VUndefined one_message))
     <> 400
  /\ statusCode (fst (put_message later firstId VUndefined one_message))
     = 500
  /\ put_message later firstId (VObject []) one_message
     = (Reply 400 (PError contentRequired), one_message).
Proof. repeat split. discriminate. Qed.

(** X18.  The order of the two tests of the update handler.  For an update
    request whose body can be destructured, content is checked before the
    id is looked up: content that is missing from the body, not a string
    or empty after trimming gives 400 whether or not the id exists, and
    valid content with an unknown id gives 404. *)
Theorem update_validates_before_lookup :
  forall clk i body c st,
    destructure_content body = inr c ->
    (invalidContent c ->
       put_message clk i body st = (Reply 400 (PError contentRequired), st)
       /\ isValidationError (fst (put_message clk i body st)))
    /\ (~ invalidContent c -> JSMap.get i (messages st) = None ->
          put_message clk i body st = (Reply 404 (PError notFound), st)
          /\ isNotFoundError (fst (put_message clk i body st))).
Proof.
  intros clk i body c st D. split.
  - intros Inv. apply rejected_true_iff in Inv.
    rewrite (put_rejects _ _ _ _ _ D Inv). split; [reflexivity|].
    exists contentRequired. split; [reflexivity | discriminate].
  - intros V G. apply not_invalid_iff in V.
    rewrite (put_missing _ _ _ _ _ D V G). split; [reflexivity|].
    now exists notFound.
Qed.

Lemma update_validates_before_lookup_witness :
  put_message later firstId (withContent (VString (lit "   "))) one_message
    = (Reply 400 (PError contentRequired), one_message)
  /\ put_message later (lit "nonexistent") hello one_message
    = (Reply 404 (PError notFound), one_message).
Proof.
  split.
  - apply (proj1 (update_validates_before_lookup later firstId
                    (withContent (VString (lit "   "))) _ one_message
                    eq_refl)).
    right; right. exists (lit "   "). split; reflexivity.
  - apply (proj2 (update_validates_before_lookup later (lit "nonexistent")
                    hello _ one_message eq_refl)).
    + intros [H | [H | (s & H & T)]].
      * discriminate H.
      * now apply H.
      * injection H as <-. discriminate T.
    + reflexivity.
Defined.

(** C3.  An update with valid content of a message that exists is answered
    with status 200; the message then stored under the id has the new
    content and the timestamp read for the request as updatedAt, and the id
    and createdAt of the message it replaces.  The other entries, the order
    of the keys and the counter are as before. *)
Theorem update_preserves_id_and_createdAt :
  forall clk i body c old st,
    destructure_content body = inr c ->
    ~ invalidContent c ->
    JSMap.get i (messages st) = Some old ->
    exists m st',
      put_message clk i body st = (Reply 200 (POne m), st')
      /\ JSMap.get i (messages st') = Some m
      /\ content m = c
      /\ updatedAt m = toISOString clk
      /\ id m = id old
      /\ createdAt m = createdAt old
      /\ (forall k, k <> i ->
            JSMap.get k (messages st') = JSMap.get k (messages st))
      /\ JSMap.keys (messages st') = JSMap.keys (messages st)
      /\ idCounter st' = idCounter st.
Proof.
  intros clk i body c old st D V G. apply not_invalid_iff in V.
  rewrite (put_accepts _ _ _ _ _ _ D V G).
  eexists. eexists. split; [reflexivity|]. cbn [messages idCounter].
  repeat split.
  - apply get_set_same.
  - intros k NE. now apply get_set_other.
  - now apply keys_set_present with old.
Qed.

Lemma update_preserves_id_and_createdAt_witness :
  exists m st',
    put_message later firstId (withContent (VString (lit "Updated")))
      one_message = (Reply 200 (POne m), st')
    /\ JSMap.get firstId (messages st') = Some m
    /\ content m = VString (lit "Updated")
    /\ updatedAt m = toISOString later
    /\ id m = firstId
    /\ createdAt m = toISOString noon.
Proof.
  destruct (update_preserves_id_and_createdAt later firstId
              (withContent (VString (lit "Updated"))) _
              {| id := firstId; content := VString (lit "Hello, World!");
                 createdAt := toISOString noon;
                 updatedAt := toISOString noon |}
              one_message eq_refl)
    as (m & st' & E & G & C & U & I & A & _).
  - intros [H | [H | (s & H & T)]].
    + discriminate H.
    + now apply H.
    + injection H as <-. discriminate T.
  - reflexivity.
  - exists m, st'. repeat split; assumption.
Defined.

(* ===================================================================== *)
(** ** The delete operation *)
(* ===================================================================== *)

(** C4, counterexample.  After a message is deleted, an update of the same
    id with empty content is answered with 400, not with 404: content is
    checked before the id is looked up. *)
Lemma update_after_delete_can_be_400 :
  present one_message firstId = true
  /\ fst (delete_message firstId one_message) = Reply 204 PNothing
  /\ fst (put_message later firstId (withContent (VString (lit "")))
            (snd (delete_message firstId one_message)))
     = Reply 400 (PError contentRequired)
  /\ ~ isNotFoundError
         (fst (put_message later firstId (withContent (VString (lit "")))
                 (snd (delete_message firstId one_message)))).
Proof.
  repeat split. intros (e & H). discriminate H.
Qed.

(** C4, amended.  Deleting an id that is present removes the message and is
    answered with status 204 and no body.  After any further requests among
    which no create issues that id again, a get and a delete of the id are
    answered with 404, and so is an update of the id whose content is a
    string that is not empty after trimming. *)
Theorem delete_then_not_found :
  forall i old st,
    JSMap.get i (messages st) = Some old ->
    delete_message i st =
      (Reply 204 PNothing,
       {| messages := JSMap.delete i (messages st);
          idCounter := idCounter st |})
    /\ JSMap.get i (JSMap.delete i (messages st)) = None
    /\ forall tr,
         ~ In i (issued (completions tr (snd (delete_message i st)))) ->
         let st2 := run tr (snd (delete_message i st)) in
         get_message i st2 = (Reply 404 (PError notFound), st2)
         /\ delete_message i st2 = (Reply 404 (PError notFound), st2)
         /\ (forall clk body s,
               destructure_content body = inr (VString s) ->
               trim s <> [] ->
               put_message clk i body st2
                 = (Reply 404 (PError notFound), st2)).
Proof.
  intros i old st G.
  assert (E : delete_message i st =
              (Reply 204 PNothing,
               {| messages := JSMap.delete i (messages st);
                  idCounter := idCounter st |})).
  { unfold delete_message. now rewrite G. }
  split; [exact E|]. split; [apply get_delete_same|].
  intros tr NI st2.
  assert (A : JSMap.get i (messages st2) = None).
  { apply absent_stays; [|exact NI].
    rewrite E. apply get_delete_same. }
  split; [|split].
  - unfold get_message. now rewrite A.
  - unfold delete_message. now rewrite A.
  - intros clk body s D T. apply put_missing with (VString s); try assumption.
    apply rejected_false_iff. now exists s.
Qed.

Lemma delete_then_not_found_witness :
  delete_message firstId one_message = (Reply 204 PNothing, after_delete)
  /\ get_message firstId
       (run [(later, POST_messages hello)] after_delete)
     = (Reply 404 (PError notFound),
        run [(later, POST_messages hello)] after_delete)
  /\ put_message later firstId (withContent (VString (lit "Updated")))
       (run [(later, POST_messages hello)] after_delete)
     = (Reply 404 (PError notFound),
        run [(later, POST_messages hello)] after_delete).
Proof.
  destruct (delete_then_not_found firstId
              {| id := firstId; content := VString (lit "Hello, World!");
                 createdAt := toISOString noon;
                 updatedAt := toISOString noon |}
              one_message eq_refl) as (E & _ & H).
  split; [exact E|].
  destruct (H [(later, POST_messages hello)]) as (Hg & _ & Hp).
  - intros [F | []]. discriminate F.
  - split; [exact Hg|].
    apply (Hp later (withContent (VString (lit "Updated"))) (lit "Updated"));
      [reflexivity | discriminate].
Defined.

(* ===================================================================== *)
(** ** Validation errors *)
(* ===================================================================== *)

(** C5, the failing input.  A create request without a body supplies no
    content, and the handler's test is written to answer missing content
    with a ValidationError, as it does for the body [{}].  The handler
    destructures the body before that test, so no ValidationError is
    produced for the request without a body: it throws a TypeError and
    the caller sees 500. *)
Lemma create_without_body_is_not_rejected :
  destructure_content VUndefined = inl TypeError
  /\ post_messages noon VUndefined init = (Throw TypeError, init)
  /\ ~ isValidationError (fst (post_messages noon VUndefined init))
  /\ statusCode (fst (post_messages noon VUndefined init)) = 500
  /\ isValidationError (fst (post_messages noon (VObject []) init)).
Proof.
  split; [reflexivity|]. split; [reflexivity|]. split; [|split].
  - intros (e & H & _). discriminate H.
  - reflexivity.
  - exists contentRequired. split; [reflexivity | discriminate].
Qed.

(** X19.  When the handlers produce a ValidationError.  A create or update
    request is answered with status 400 and a non-empty error string if
    and only if its body can be destructured and the content found there
    is missing, not a string, or empty after trimming. *)
Theorem validation_error_iff :
  forall clk i body st,
    (isValidationError (fst (post_messages clk body st)) <->
       exists c, destructure_content body = inr c /\ invalidContent c)
    /\ (isValidationError (fst (put_message clk i body st)) <->
          exists c, destructure_content body = inr c /\ invalidContent c).
Proof.
  intros clk i body st.
  assert (VE : isValidationError (Reply 400 (PError contentRequired))).
  { exists contentRequired. split; [reflexivity | discriminate]. }
  split; split.
  - intros (e & H & _). unfold post_messages in H.
    destruct (destructure_content body) as [err | c]; [discriminate H|].
    exists c. split; [reflexivity|]. apply rejected_true_iff.
    destruct (rejected c); [reflexivity | discriminate H].
  - intros (c & D & Inv). apply rejected_true_iff in Inv.
    now rewrite (post_rejects _ _ _ _ D Inv).
  - intros (e & H & _). unfold put_message in H.
    destruct (destructure_content body) as [err | c]; [discriminate H|].
    exists c. split; [reflexivity|]. apply rejected_true_iff.
    destruct (rejected c); [reflexivity|].
    destruct (JSMap.get i (messages st)); discriminate H.
  - intros (c & D & Inv). apply rejected_true_iff in Inv.
    now rewrite (put_rejects _ _ _ _ _ D Inv).
Qed.

Lemma validation_error_iff_witness :
  isValidationError
    (fst (post_messages noon (withContent (VString (lit "   "))) init))
  /\ isValidationError
       (fst (put_message later firstId (VObject []) one_message)).
Proof.
  split.
  - apply (proj1 (validation_error_iff noon firstId
                    (withContent (VString (lit "   "))) init)).
    exists (VString (lit "   ")). split; [reflexivity|].
    right; right. exists (lit "   "). split; reflexivity.
  - apply (proj2 (validation_error_iff later firstId (VObject [])
                    one_message)).
    exists VUndefined. split; [reflexivity|]. now left.
Defined.

(* ===================================================================== *)
(** ** The list operation *)
(* ===================================================================== *)




(* ===================================================================== *)
(** ** Failures leave the store alone *)
(* ===================================================================== *)

(** C7.  A request answered with 400 or 404 leaves the state as it was; in
    particular an update of an existing id with empty or white-space-only
    content is answered with 400 and the stored message is unchanged. *)
Theorem failure_leaves_store_untouched :
  (forall clk req st,
     statusCode (fst (handle clk req st)) = 400 \/
     statusCode (fst (handle clk req st)) = 404 ->
     snd (handle clk req st) = st)
  /\ (forall clk i s old st,
        blank s = true ->
        JSMap.get i (messages st) = Some old ->
        put_message clk i (withContent (VString s)) st
          = (Reply 400 (PError contentRequired), st)
        /\ JSMap.get i
             (messages (snd (put_message clk i (withContent (VString s)) st)))
           = Some old).
Proof.
  split.
  - intros clk req st H.
    destruct (handle_effect clk req st)
      as [c C D | clk' c m R -> | clk' i c old m R G -> | i old G];
      [reflexivity | | | ]; simpl in H; destruct H; discriminate.
  - intros clk i s old st B G.
    assert (E : put_message clk i (withContent (VString s)) st
                = (Reply 400 (PError contentRequired), st)).
    { apply put_rejects with (VString s); [reflexivity|].
      apply rejected_true_iff. right; right. exists s.
      split; [reflexivity | now apply trim_nil_iff]. }
    rewrite E. now split.
Qed.

Lemma failure_leaves_store_untouched_witness :
  snd (handle later (GET_message (lit "nonexistent")) one_message)
    = one_message
  /\ put_message later firstId (withContent (VString (lit "   "))) one_message
     = (Reply 400 (PError contentRequired), one_message).
Proof.
  split.
  - apply (proj1 failure_leaves_store_untouched). right. reflexivity.
  - apply (proj2 failure_leaves_store_untouched later firstId (lit "   ")
             {| id := firstId; content := VString (lit "Hello, World!");
                createdAt := toISOString noon;
                updatedAt := toISOString noon |} one_message);
      reflexivity.
Defined.

(* ===================================================================== *)
(** ** The id generator *)
(* ===================================================================== *)




(* ===================================================================== *)
(** ** Stored content *)
(* ===================================================================== *)

(** C9.  In every reachable state the content of every stored message is a
    string that is neither empty nor made of white space only: this holds
    of the initial state and every request keeps it, update included. *)
Theorem stored_content_never_blank :
  contents_ok init
  /\ (forall clk req st,
        contents_ok st -> contents_ok (snd (handle clk req st)))
  /\ (forall st, reachable st ->
        forall k m, In (k, m) (messages st) ->
          exists s, content m = VString s /\ s <> [] /\ blank s = false).
Proof.
  split; [exact contents_ok_init|]. split; [exact contents_ok_step|].
  intros st R.
  assert (K : contents_ok st).
  { induction R as [|clk req st R IH].
    - exact contents_ok_init.
    - now apply contents_ok_step. }
  intros k m H. destruct (K k m H) as (s & C & NE & B & _).
  now exists s.
Qed.

Lemma stored_content_never_blank_witness :
  exists s,
    content {| id := firstId; content := VString (lit "Hello, World!");
               createdAt := toISOString noon;
               updatedAt := toISOString noon |} = VString s
    /\ s <> [] /\ blank s = false.
Proof.
  apply (proj2 (proj2 stored_content_never_blank) one_message
           (reachable_step noon (POST_messages hello) init reachable_init)
           firstId).
  left. reflexivity.
Defined.

(* ===================================================================== *)
(** ** A request without a body *)
(* ===================================================================== *)

(** C10.  When [request.body] is undefined the create and the update
    handler throw a TypeError while destructuring it, before the content
    is tested: the state is unchanged and the caller sees status 500, not
    the 400 that an object without content gets. *)
Theorem absent_body_throws_before_validation :
  forall clk i st,
    post_messages clk VUndefined st = (Throw TypeError, st)
    /\ put_message clk i VUndefined st = (Throw TypeError, st)
    /\ statusCode (fst (post_messages clk VUndefined st)) = 500
    /\ statusCode (fst (put_message clk i VUndefined st)) = 500
    /\ post_messages clk (VObject []) st
       = (Reply 400 (PError contentRequired), st)
    /\ put_message clk i (VObject []) st
       = (Reply 400 (PError contentRequired), st).
Proof. intros clk i st. repeat split. Qed.
End Claims.


(* ===================================================================== *)
(** ** Further properties of the handlers *)
(* ===================================================================== *)

Section MoreFacts.
Import JSMapFacts.

Lemma set_set (V : Type) (k : jsstring) (v1 v2 : V) (m : JSMap.t V) :
  JSMap.set k v2 (JSMap.set k v1 m) = JSMap.set k v2 m.
Proof.
  induction m as [|[k' v'] r IH]; simpl.
  - destruct (jsstring_eq_dec k k); [reflexivity | congruence].
  - destruct (jsstring_eq_dec k k') as [-> | NE]; simpl.
    + destruct (jsstring_eq_dec k' k'); [reflexivity | congruence].
    + destruct (jsstring_eq_dec k k'); [congruence | now rewrite IH].
Qed.

Lemma delete_absent (V : Type) (k : jsstring) (m : JSMap.t V) :
  JSMap.get k m = None -> JSMap.delete k m = m.
Proof.
  induction m as [|[k' v'] r IH]; simpl; [reflexivity|].
  destruct (jsstring_eq_dec k k'); [discriminate|].
  intros G. now rewrite IH.
Qed.

Lemma delete_app (V : Type) (k : jsstring) (a b : JSMap.t V) :
  JSMap.delete k (a ++ b) = JSMap.delete k a ++ JSMap.delete k b.
Proof.
  induction a as [|[k' v'] r IH]; simpl; [reflexivity|].
  destruct (jsstring_eq_dec k k'); [exact IH | now rewrite IH].
Qed.

Lemma uint_units_digits (u : Decimal.uint) :
  forallb isIdUnit (uint_units u) = true.
Proof. induction u; simpl; auto. Qed.

Lemma make_id_units (now : Z) (c : N) :
  forallb isIdUnit (make_id now c) = true.
Proof.
  unfold make_id, string_of_Z, string_of_N.
  rewrite forallb_app. simpl.
  destruct (Z.to_int now); simpl; now rewrite !uint_units_digits.
Qed.

Lemma string_of_Z_no_hyphen_tail (z : Z) :
  string_of_Z z = [] \/
  exists d r, string_of_Z z = d :: r /\ ~ In hyphen r.
Proof.
  unfold string_of_Z. destruct (Z.to_int z) as [u | u].
  - destruct (uint_units u) as [|d r] eqn:E; [now left|].
    right. exists d, r. split; [reflexivity|].
    intros H. apply (uint_units_no_hyphen u). rewrite E. now right.
  - right. exists hyphen, (uint_units u). split; [reflexivity|].
    apply uint_units_no_hyphen.
Qed.

Lemma string_of_Z_inj (a b : Z) : string_of_Z a = string_of_Z b -> a = b.
Proof.
  unfold string_of_Z. intros H. apply to_int_inj.
  destruct (Z.to_int a) as [u | u], (Z.to_int b) as [v | v].
  - f_equal. now apply uint_units_inj.
  - exfalso. apply (uint_units_no_hyphen u). rewrite H. now left.
  - exfalso. apply (uint_units_no_hyphen v). rewrite <- H. now left.
  - injection H as H. f_equal. now apply uint_units_inj.
Qed.

Lemma generated_keys_step clk req st :
  generated_keys st -> generated_keys (snd (handle clk req st)).
Proof.
  intros K.
  destruct (handle_effect clk req st)
    as [c C D | clk' c m R -> | clk' i c old m R G -> | i old G];
    [exact K | | | ]; intros k H; simpl in H.
  - destruct (JSMap.get (make_id (Date_now clk') (idCounter st))
                (messages st)) eqn:G.
    + rewrite (keys_set_present _ _ _ _ G) in H. now apply K.
    + rewrite (keys_set_absent _ _ _ G) in H.
      apply in_app_iff in H as [H | [<- | []]]; [now apply K|].
      now exists (Date_now clk'), (idCounter st).
  - rewrite (keys_set_present _ _ _ _ G) in H. now apply K.
  - rewrite keys_delete in H. apply filter_In in H as [H _]. now apply K.
Qed.

Lemma reachable_generated_keys st : reachable st -> generated_keys st.
Proof.
  induction 1 as [|clk req st R IH].
  - intros k [].
  - now apply generated_keys_step.
Qed.

Lemma counter_bounded_step clk req st :
  idCounter st <= two53 -> idCounter (snd (handle clk req st)) <= two53.
Proof.
  intros B.
  destruct (handle_effect clk req st) as [ | | | ]; simpl; try exact B.
  unfold number_succ. destruct (idCounter st <? two53) eqn:T; [|exact B].
  apply N.ltb_lt in T. lia.
Qed.

Lemma counter_step_le clk req st :
  idCounter st <= idCounter (snd (handle clk req st)).
Proof.
  destruct (handle_effect clk req st) as [ | | | ]; simpl;
    try apply N.le_refl.
  apply number_succ_le.
Qed.

Lemma read_step clk req st :
  isRead req = true -> snd (handle clk req st) = st.
Proof.
  destruct req as [|body| |i|i body|i]; try discriminate; intros _;
    [reflexivity | reflexivity |].
  simpl. unfold get_message. now destruct (JSMap.get i (messages st)).
Qed.

(** A well-formed store stays well formed over a create as long as the
    counter has not reached 2^53. *)
Lemma store_ok_create clk body c st :
  destructure_content body = inr c -> rejected c = false ->
  store_ok st -> idCounter st < two53 ->
  store_ok (snd (post_messages clk body st)).
Proof.
  intros D R OK B.
  pose proof (store_ok_fresh (Date_now clk) st OK) as F.
  destruct OK as [ND K].
  rewrite (post_accepts _ _ _ _ D R). cbn [snd]. split; cbn [messages].
  - now apply NoDup_keys_set.
  - intros k m H. cbn [idCounter]. rewrite number_succ_below by exact B.
    apply in_set in H as [E | H].
    + injection E as -> ->. split; [reflexivity|].
      exists (Date_now clk), (idCounter st). split; [reflexivity | lia].
    + destruct (K _ _ H) as (I & t & n & E & L).
      split; [exact I|]. exists t, n. split; [exact E | lia].
Qed.

Lemma blank_false_iff (s : jsstring) :
  blank s = false <-> exists c, In c s /\ isWhiteSpace c = false.
Proof.
  unfold blank. split.
  - induction s as [|c r IH]; [discriminate|]. simpl.
    destruct (isWhiteSpace c) eqn:W; simpl.
    + intros H. destruct (IH H) as (d & I & Wd).
      exists d. split; [now right | exact Wd].
    + intros _. exists c. split; [now left | exact W].
  - intros (c & I & W).
    destruct (forallb isWhiteSpace s) eqn:B; [|reflexivity].
    rewrite forallb_forall in B. rewrite (B c I) in W. discriminate W.
Qed.

Lemma get_of_in (V : Type) (k : jsstring) (v : V) (m : JSMap.t V) :
  NoDup (JSMap.keys m) -> In (k, v) m -> JSMap.get k m = Some v.
Proof.
  induction m as [|[k' v'] r IH]; simpl; [tauto|].
  intros ND [E | H].
  - injection E as -> ->.
    destruct (jsstring_eq_dec k k); [reflexivity | congruence].
  - inversion ND as [|? ? N1 N2]; subst.
    destruct (jsstring_eq_dec k k') as [-> | NE].
    + elim N1. now apply in_keys with v.
    + now apply IH.
Qed.

End MoreFacts.

(* ===================================================================== *)
(** ** Reading one message *)
(* ===================================================================== *)

Section Extras.
Import JSMapFacts.

(** X1.  What a create returns can be read back: after a create with valid
    content, in any state, GET /messages/:id with the id of the returned
    message is answered with status 200 and that very message. *)
Theorem create_then_get :
  forall clk body s st,
    destructure_content body = inr (VString s) ->
    trim s <> [] ->
    exists m,
      fst (post_messages clk body st) = Reply 201 (POne m)
      /\ get_message (id m) (snd (post_messages clk body st))
         = (Reply 200 (POne m), snd (post_messages clk body st)).
Proof.
  intros clk body s st D T.
  assert (R : rejected (VString s) = false).
  { apply rejected_false_iff. now exists s. }
  rewrite (post_accepts _ _ _ _ D R). eexists. split; [reflexivity|].
  unfold get_message. cbn [snd messages id]. now rewrite get_set_same.
Qed.

Lemma create_then_get_witness :
  exists m,
    fst (post_messages later hello one_message) = Reply 201 (POne m)
    /\ get_message (id m) (snd (post_messages later hello one_message))
       = (Reply 200 (POne m), snd (post_messages later hello one_message)).
Proof.
  apply (create_then_get later hello (lit "Hello, World!") one_message
           eq_refl).
  discriminate.
Defined.

(** X2.  The three routes that take an id agree on whether it exists: GET
    and DELETE are answered with 404 exactly when the id is not a key of
    the store, and so is PUT when its content is valid. *)
Theorem not_found_iff_absent :
  forall i st,
    (statusCode (fst (get_message i st)) = 404
       <-> ~ In i (JSMap.keys (messages st)))
    /\ (statusCode (fst (delete_message i st)) = 404
          <-> ~ In i (JSMap.keys (messages st)))
    /\ (forall clk body c,
          destructure_content body = inr c -> ~ invalidContent c ->
          (statusCode (fst (put_message clk i body st)) = 404
             <-> ~ In i (JSMap.keys (messages st)))).
Proof.
  intros i st. rewrite <- get_none_iff. split; [|split].
  - unfold get_message. destruct (JSMap.get i (messages st)); simpl;
      split; intros H; try reflexivity; discriminate H.
  - unfold delete_message. destruct (JSMap.get i (messages st)); simpl;
      split; intros H; try reflexivity; discriminate H.
  - intros clk body c D V. apply not_invalid_iff in V.
    rewrite <- get_none_iff.
    destruct (JSMap.get i (messages st)) as [old|] eqn:G.
    + rewrite (put_accepts _ _ _ _ _ _ D V G). simpl.
      split; intros H; discriminate H.
    + rewrite (put_missing _ _ _ _ _ D V G). simpl.
      split; intros H; reflexivity.
Qed.

Lemma not_found_iff_absent_witness :
  statusCode (fst (put_message later (lit "nonexistent") hello one_message))
    = 404.
Proof.
  apply (proj2 (proj2 (not_found_iff_absent (lit "nonexistent") one_message))
           later hello (VString (lit "Hello, World!")) eq_refl).
  - intros [H | [H | (s & H & T)]].
    + discriminate H.
    + now apply H.
    + injection H as <-. discriminate T.
  - intros [H | []]. discriminate H.
Defined.

(** X3.  In every reachable state, the message that GET /messages/:id
    returns carries the id that was asked for. *)
Theorem get_returns_requested_id :
  forall st i m st',
    reachable st ->
    get_message i st = (Reply 200 (POne m), st') ->
    id m = i /\ st' = st /\ In m (JSMap.values (messages st)).
Proof.
  intros st i m st' R H. unfold get_message in H.
  destruct (JSMap.get i (messages st)) as [m0|] eqn:G; [|discriminate H].
  injection H as -> <-. apply get_in in G.
  destruct (reachable_keyed st R) as [_ K].
  split; [now apply K|]. split; [reflexivity|].
  unfold JSMap.values. apply in_map_iff. now exists (i, m).
Qed.

Lemma get_returns_requested_id_witness :
  id {| id := firstId; content := VString (lit "Hello, World!");
        createdAt := toISOString noon; updatedAt := toISOString noon |}
    = firstId.
Proof.
  apply (get_returns_requested_id one_message firstId _ one_message
           (reachable_step noon (POST_messages hello) init reachable_init)
           eq_refl).
Defined.

(** X4.  The GET routes never change the state: a run and the same run
    with its GET requests left out end in the same state, and a run of GET
    requests alone ends where it started. *)
Theorem reads_are_transparent :
  (forall tr st, run (writes tr) st = run tr st)
  /\ (forall tr st,
        forallb (fun x => isRead (snd x)) tr = true -> run tr st = st).
Proof.
  split.
  - induction tr as [|[clk req] tr IH]; intros st; [reflexivity|].
    unfold writes in *. simpl.
    destruct (isRead req) eqn:E; simpl.
    + rewrite (read_step _ _ _ E). apply IH.
    + apply IH.
  - induction tr as [|[clk req] tr IH]; intros st H; [reflexivity|].
    simpl in H. apply andb_true_iff in H as [E H]. simpl.
    rewrite (read_step _ _ _ E). now apply IH.
Qed.

Lemma reads_are_transparent_witness :
  run [(noon, GET_messages); (later, GET_message firstId); (later, GET_root)]
    one_message = one_message.
Proof.
  apply (proj2 reads_are_transparent). reflexivity.
Defined.

(* ===================================================================== *)
(** ** How the operations compose *)
(* ===================================================================== *)

(** X5.  An update overwrites an earlier update: two updates of the same
    existing message with valid content are answered, and leave the state,
    as the second update alone does; createdAt and id are those of the
    original message, not of the first update. *)
Theorem update_overwrites_update :
  forall clk1 clk2 i body1 body2 c1 c2 old st,
    destructure_content body1 = inr c1 -> ~ invalidContent c1 ->
    destructure_content body2 = inr c2 -> ~ invalidContent c2 ->
    JSMap.get i (messages st) = Some old ->
    put_message clk2 i body2 (snd (put_message clk1 i body1 st))
      = put_message clk2 i body2 st.
Proof.
  intros clk1 clk2 i body1 body2 c1 c2 old st D1 V1 D2 V2 G.
  apply not_invalid_iff in V1, V2.
  rewrite (put_accepts _ _ _ _ _ _ D1 V1 G). cbn [snd].
  rewrite (put_accepts clk2 i body2 c2 old st D2 V2 G).
  erewrite (put_accepts clk2 i body2 c2) by
    (try eassumption; cbn [messages]; apply get_set_same).
  cbn [id createdAt messages idCounter]. now rewrite set_set.
Qed.

Lemma update_overwrites_update_witness :
  put_message later firstId (withContent (VString (lit "Second")))
    (snd (put_message noon firstId (withContent (VString (lit "First")))
            one_message))
  = put_message later firstId (withContent (VString (lit "Second")))
      one_message.
Proof.
  apply (update_overwrites_update noon later firstId
           (withContent (VString (lit "First")))
           (withContent (VString (lit "Second")))
           (VString (lit "First")) (VString (lit "Second"))
           {| id := firstId; content := VString (lit "Hello, World!");
              createdAt := toISOString noon;
              updatedAt := toISOString noon |} one_message eq_refl).
  - intros [H | [H | (s & H & T)]];
      [discriminate H | now apply H | injection H as <-; discriminate T].
  - reflexivity.
  - intros [H | [H | (s & H & T)]];
      [discriminate H | now apply H | injection H as <-; discriminate T].
  - reflexivity.
Defined.

(** X6.  A delete touches one id only: every other id is looked up as
    before, the remaining keys keep their order, the counter is unchanged,
    and in a reachable state that holds the id the store shrinks by exactly
    one message. *)
Theorem delete_leaves_others :
  forall i st,
    (forall k, k <> i ->
       JSMap.get k (messages (snd (delete_message i st)))
       = JSMap.get k (messages st))
    /\ JSMap.keys (messages (snd (delete_message i st)))
       = filter (other i) (JSMap.keys (messages st))
    /\ idCounter (snd (delete_message i st)) = idCounter st
    /\ (reachable st -> present st i = true ->
          S (JSMap.size (messages (snd (delete_message i st))))
          = JSMap.size (messages st)).
Proof.
  intros i st. unfold delete_message, present.
  destruct (JSMap.get i (messages st)) as [old|] eqn:G; cbn [snd messages idCounter].
  - split; [|split; [|split]].
    + intros k NE. now apply get_delete_other.
    + apply keys_delete.
    + reflexivity.
    + intros R _. destruct (reachable_keyed st R) as [ND _].
      now apply size_delete_present with old.
  - split; [|split; [|split]]; try reflexivity; [|discriminate].
    rewrite <- keys_delete. now rewrite (delete_absent _ _ _ G).
Qed.

Lemma delete_leaves_others_witness :
  S (JSMap.size (messages (snd (delete_message firstId one_message))))
    = JSMap.size (messages one_message).
Proof.
  apply (proj2 (proj2 (proj2 (delete_leaves_others firstId one_message)))).
  - apply (reachable_step noon (POST_messages hello) init reachable_init).
  - reflexivity.
Defined.

(** X7.  Create and delete undo each other on the store: after a create
    with valid content in a well-formed store, deleting the id just issued
    is answered with 204 and leaves exactly the messages there were before,
    in the same order; only the counter has advanced. *)
Theorem create_then_delete_restores :
  forall clk body s st,
    destructure_content body = inr (VString s) ->
    trim s <> [] ->
    store_ok st ->
    exists m,
      fst (post_messages clk body st) = Reply 201 (POne m)
      /\ delete_message (id m) (snd (post_messages clk body st))
         = (Reply 204 PNothing,
            {| messages := messages st;
               idCounter := number_succ (idCounter st) |}).
Proof.
  intros clk body s st D T OK.
  assert (R : rejected (VString s) = false).
  { apply rejected_false_iff. now exists s. }
  pose proof (store_ok_fresh (Date_now clk) st OK) as F.
  rewrite (post_accepts _ _ _ _ D R). eexists. split; [reflexivity|].
  unfold delete_message. cbn [snd messages idCounter id].
  rewrite get_set_same, (set_absent _ _ _ F), delete_app.
  rewrite (delete_absent _ _ _ F). cbn [JSMap.delete].
  destruct (jsstring_eq_dec _ _) as [_ | NE]; [|now elim NE].
  now rewrite app_nil_r.
Qed.

Lemma create_then_delete_restores_witness :
  exists m,
    fst (post_messages later hello one_message) = Reply 201 (POne m)
    /\ delete_message (id m) (snd (post_messages later hello one_message))
       = (Reply 204 PNothing,
          {| messages := messages one_message;
             idCounter := number_succ (idCounter one_message) |}).
Proof.
  apply (create_then_delete_restores later hello (lit "Hello, World!")
           one_message eq_refl).
  - discriminate.
  - apply (run_store_ok [(noon, POST_messages hello)]).
    vm_compute. discriminate.
Defined.

(* ===================================================================== *)
(** ** The counter and the ids *)
(* ===================================================================== *)

(** X8.  The counter never goes down during a run, a request that changes
    it is a create answered with 201, and in every reachable state it is at
    most 2^53, so that it is always printed in plain decimal digits. *)
Theorem counter_monotone_bounded :
  (forall tr st, idCounter st <= idCounter (run tr st))
  /\ (forall clk req st,
        idCounter (snd (handle clk req st)) <> idCounter st ->
        isCreated (fst (handle clk req st)) = true)
  /\ (forall st, reachable st -> idCounter st <= two53).
Proof.
  split; [|split].
  - induction tr as [|[clk req] tr IH]; intros st; [apply N.le_refl|].
    simpl. eapply N.le_trans; [apply counter_step_le | apply IH].
  - intros clk req st H.
    destruct (handle_effect clk req st) as [ | | | ];
      try reflexivity; now elim H.
  - induction 1 as [|clk req st R IH].
    + discriminate.
    + now apply counter_bounded_step.
Qed.

Lemma counter_monotone_bounded_witness :
  isCreated (fst (handle noon (POST_messages hello) init)) = true
  /\ idCounter one_message <= two53.
Proof.
  split.
  - apply (proj1 (proj2 counter_monotone_bounded)). discriminate.
  - apply (proj2 (proj2 counter_monotone_bounded)).
    apply (reachable_step noon (POST_messages hello) init reachable_init).
Defined.

(** X9.  In every reachable state every key of the store is a non-empty
    string of decimal digits and hyphens.  An id with any other character,
    such as [nonexistent], is therefore answered with 404 by GET, by
    DELETE, and by PUT with valid content, whatever happened before. *)
Theorem foreign_id_not_found :
  forall st, reachable st ->
    (forall k, In k (JSMap.keys (messages st)) ->
       k <> [] /\ forallb isIdUnit k = true)
    /\ (forall i, forallb isIdUnit i = false ->
          get_message i st = (Reply 404 (PError notFound), st)
          /\ delete_message i st = (Reply 404 (PError notFound), st)
          /\ forall clk body c,
               destructure_content body = inr c -> ~ invalidContent c ->
               put_message clk i body st
                 = (Reply 404 (PError notFound), st)).
Proof.
  intros st R. pose proof (reachable_generated_keys st R) as K.
  assert (S1 : forall k, In k (JSMap.keys (messages st)) ->
                 k <> [] /\ forallb isIdUnit k = true).
  { intros k H. destruct (K k H) as (t & c & ->).
    split; [|apply make_id_units].
    unfold make_id. intros E. now apply app_eq_nil in E as [_ E]. }
  split; [exact S1|]. intros i F.
  assert (G : JSMap.get i (messages st) = None).
  { apply get_none_iff. intros H. apply S1 in H as [_ H]. congruence. }
  split; [|split].
  - unfold get_message. now rewrite G.
  - unfold delete_message. now rewrite G.
  - intros clk body c D V. apply not_invalid_iff in V.
    now apply put_missing with c.
Qed.

Lemma foreign_id_not_found_witness :
  get_message (lit "nonexistent") (run two_creates_one_delete init)
    = (Reply 404 (PError notFound), run two_creates_one_delete init).
Proof.
  apply (proj2 (foreign_id_not_found (run two_creates_one_delete init)
                  (reachable_run two_creates_one_delete))
           (lit "nonexistent")).
  reflexivity.
Defined.

(** X10.  The id records the clock reading and the counter it was built
    from: two ids are equal only if both the millisecond time and the
    counter value are. *)
Theorem make_id_injective :
  forall t1 t2 c1 c2,
    make_id t1 c1 = make_id t2 c2 -> t1 = t2 /\ c1 = c2.
Proof.
  unfold make_id. intros t1 t2 c1 c2 E.
  apply cut_at_last in E; try apply uint_units_no_hyphen.
  destruct E as [E1 E2].
  split; [now apply string_of_Z_inj | now apply string_of_N_inj].
Qed.

Lemma make_id_injective_witness :
  Date_now noon = 1700000000000%Z /\ idCounter init = 0.
Proof.
  apply (make_id_injective (Date_now noon) 1700000000000%Z
           (idCounter init) 0).
  reflexivity.
Defined.

(** X11.  The id and createdAt of a message never change while it is in the
    store: if an id holds a message before a run and after it, and no
    create of the run issued that id, the two messages have the same id and
    the same createdAt, whatever updates and other requests the run
    contains. *)
Theorem createdAt_never_changes :
  forall tr st i m m',
    JSMap.get i (messages st) = Some m ->
    ~ In i (issued (completions tr st)) ->
    JSMap.get i (messages (run tr st)) = Some m' ->
    id m' = id m /\ createdAt m' = createdAt m.
Proof.
  induction tr as [|[clk req] tr IH]; intros st i m m' G NI G'.
  - simpl in G'. rewrite G in G'. injection G' as <-. now split.
  - simpl run in G'. simpl completions in NI.
    change (?c :: ?l) with ([c] ++ l) in NI.
    rewrite issued_app, in_app_iff in NI.
    assert (NI2 : ~ In i (issued (completions tr (snd (handle clk req st)))))
      by tauto.
    destruct (handle_effect clk req st)
      as [c C D | clk' c m0 R -> | clk' j c old m0 R Gj -> | j old Gj].
    + now apply IH with st i.
    + apply IH with (m := m) in G'; [exact G' | | exact NI2].
      cbn [messages id]. rewrite get_set_other; [exact G|].
      intros ->. apply NI. left. now left.
    + destruct (jsstring_eq_dec i j) as [-> | NE].
      * rewrite G in Gj. injection Gj as <-.
        apply IH with
          (m := {| id := id m; content := c; createdAt := createdAt m;
                   updatedAt := toISOString clk' |}) in G';
          [exact G' | | exact NI2].
        cbn [messages]. apply get_set_same.
      * apply IH with (m := m) in G'; [exact G' | | exact NI2].
        cbn [messages]. now rewrite get_set_other.
    + destruct (jsstring_eq_dec i j) as [-> | NE].
      * exfalso.
        rewrite (absent_stays tr _ j) in G'; [discriminate G' | | exact NI2].
        cbn [messages]. apply get_delete_same.
      * apply IH with (m := m) in G'; [exact G' | | exact NI2].
        cbn [messages]. now rewrite get_delete_other.
Qed.

Lemma createdAt_never_changes_witness :
  id {| id := firstId; content := VString (lit "Updated");
        createdAt := toISOString noon; updatedAt := toISOString later |}
    = firstId
  /\ createdAt {| id := firstId; content := VString (lit "Updated");
                  createdAt := toISOString noon;
                  updatedAt := toISOString later |}
     = toISOString noon.
Proof.
  apply (createdAt_never_changes
           [(later, PUT_message firstId
                      (withContent (VString (lit "Updated"))));
            (later, POST_messages hello)]
           one_message firstId
           {| id := firstId; content := VString (lit "Hello, World!");
              createdAt := toISOString noon;
              updatedAt := toISOString noon |}
           {| id := firstId; content := VString (lit "Updated");
              createdAt := toISOString noon;
              updatedAt := toISOString later |} eq_refl).
  - intros [F | []]. discriminate F.
  - reflexivity.
Defined.

(* ===================================================================== *)
(** ** Bodies, statuses and errors *)
(* ===================================================================== *)

(** X12.  A string is accepted as content exactly when it holds a code unit
    that is not white space; strings made only of spaces, tabs, line ends,
    no-break spaces and the like are rejected like the empty string. *)
Theorem string_rejected_iff_blank :
  forall s,
    rejected (VString s) = blank s
    /\ (rejected (VString s) = false <->
          exists c, In c s /\ isWhiteSpace c = false).
Proof.
  intros s.
  assert (E : rejected (VString s) = blank s).
  { destruct (blank s) eqn:B.
    - apply rejected_true_iff. right; right. exists s.
      split; [reflexivity | now apply trim_nil_iff].
    - apply rejected_false_iff. exists s.
      split; [reflexivity | now apply trim_nonempty_iff]. }
  split; [exact E|]. rewrite E. apply blank_false_iff.
Qed.

Lemma string_rejected_iff_blank_witness :
  rejected (VString [32; 160; 8232; 65279; 9]) = true
  /\ rejected (VString (lit "  x  ")) = false.
Proof.
  split.
  - rewrite (proj1 (string_rejected_iff_blank [32; 160; 8232; 65279; 9])).
    reflexivity.
  - apply (proj2 (string_rejected_iff_blank (lit "  x  "))).
    exists 120. split; [|reflexivity]. simpl. tauto.
Defined.

(** X13.  A handler throws exactly when the request is a create or an
    update whose body is undefined or null; the state is then unchanged.
    Bodies of any other kind (a string, a number, a boolean, an array, an
    object without content) are answered, not thrown on, and no other
    route ever throws. *)
Theorem throws_iff_nullish_body :
  forall clk req st,
    ((exists e, fst (handle clk req st) = Throw e) <->
       exists body, nullish body /\
         (req = POST_messages body \/ exists i, req = PUT_message i body))
    /\ ((exists e, fst (handle clk req st) = Throw e) ->
          snd (handle clk req st) = st).
Proof.
  intros clk req st. split.
  - split.
    + intros (e & H).
      destruct req as [|body| |i|i body|i]; simpl in H.
      * discriminate H.
      * exists body. split; [|now left].
        unfold post_messages in H.
        destruct body; simpl in H;
          try (now left); try (now right);
          try (destruct (rejected _); discriminate H).
      * discriminate H.
      * unfold get_message in H.
        destruct (JSMap.get i (messages st)); discriminate H.
      * exists body. split; [|right; now exists i].
        unfold put_message in H.
        destruct body; simpl in H;
          try (now left); try (now right);
          try (destruct (rejected _); [discriminate H|];
               destruct (JSMap.get i (messages st)); discriminate H).
      * unfold delete_message in H.
        destruct (JSMap.get i (messages st)); discriminate H.
    + intros (body & [-> | ->] & [-> | (i & ->)]);
        exists TypeError; reflexivity.
  - intros (e & H).
    destruct (handle_effect clk req st) as [ | | | ];
      [reflexivity | | | ]; discriminate H.
Qed.

Lemma throws_iff_nullish_body_witness :
  (exists e, fst (handle noon (PUT_message firstId VNull) one_message)
             = Throw e)
  /\ snd (handle noon (PUT_message firstId VNull) one_message) = one_message.
Proof.
  assert (T : exists e,
            fst (handle noon (PUT_message firstId VNull) one_message)
            = Throw e).
  { apply (proj1 (throws_iff_nullish_body noon
                    (PUT_message firstId VNull) one_message)).
    exists VNull. split; [now right|]. right. now exists firstId. }
  split; [exact T|].
  now apply (proj2 (throws_iff_nullish_body noon
                      (PUT_message firstId VNull) one_message)).
Defined.

(** X14.  The statuses of each route: a create is answered with 201, 400 or
    500 (when it throws), a list with 200, a get with 200 or 404, an update
    with 200, 400, 404 or 500, a delete with 204 or 404; and every reply
    with status 400 or 404 carries a non-empty error string. *)
Theorem statuses_by_route :
  forall clk st,
    (forall body, In (statusCode (fst (post_messages clk body st)))
                     [201; 400; 500])
    /\ statusCode (fst (get_messages st)) = 200
    /\ statusCode (fst (get_root st)) = 200
    /\ (forall i, In (statusCode (fst (get_message i st))) [200; 404])
    /\ (forall i body, In (statusCode (fst (put_message clk i body st)))
                         [200; 400; 404; 500])
    /\ (forall i, In (statusCode (fst (delete_message i st))) [204; 404])
    /\ (forall req code p,
          fst (handle clk req st) = Reply code p ->
          code = 400 \/ code = 404 ->
          exists e, p = PError e /\ e <> []).
Proof.
  intros clk st. repeat split.
  - intros body. unfold post_messages.
    destruct (destructure_content body); simpl; [tauto|].
    destruct (rejected _); simpl; tauto.
  - intros i. unfold get_message.
    destruct (JSMap.get i (messages st)); simpl; tauto.
  - intros i body. unfold put_message.
    destruct (destructure_content body); simpl; [tauto|].
    destruct (rejected _); simpl; [tauto|].
    destruct (JSMap.get i (messages st)); simpl; tauto.
  - intros i. unfold delete_message.
    destruct (JSMap.get i (messages st)); simpl; tauto.
  - intros req code p H C.
    destruct req as [|body| |i|i body|i]; simpl in H.
    + injection H as <- <-. destruct C; discriminate.
    + unfold post_messages in H.
      destruct (destructure_content body); [discriminate H|].
      destruct (rejected _); injection H as <- <-.
      * exists contentRequired. split; [reflexivity | discriminate].
      * destruct C; discriminate.
    + injection H as <- <-. destruct C; discriminate.
    + unfold get_message in H.
      destruct (JSMap.get i (messages st)); injection H as <- <-.
      * destruct C; discriminate.
      * exists notFound. split; [reflexivity | discriminate].
    + unfold put_message in H.
      destruct (destructure_content body); [discriminate H|].
      destruct (rejected _).
      * injection H as <- <-.
        exists contentRequired. split; [reflexivity | discriminate].
      * destruct (JSMap.get i (messages st)); injection H as <- <-.
        -- destruct C; discriminate.
        -- exists notFound. split; [reflexivity | discriminate].
    + unfold delete_message in H.
      destruct (JSMap.get i (messages st)); injection H as <- <-.
      * destruct C; discriminate.
      * exists notFound. split; [reflexivity | discriminate].
Qed.

Lemma statuses_by_route_witness :
  exists e, PError notFound = PError e /\ e <> [].
Proof.
  apply (proj2 (proj2 (proj2 (proj2 (proj2 (proj2
           (statuses_by_route later one_message))))))
           (DELETE_message (lit "nonexistent")) 404 (PError notFound)).
  - reflexivity.
  - now right.
Defined.

(** X15.  An update never creates a message: whatever the id, the body and
    the state, the keys of the store and their order are the same after a
    PUT as before, and so is the counter. *)
Theorem update_never_inserts :
  forall clk i body st,
    JSMap.keys (messages (snd (put_message clk i body st)))
      = JSMap.keys (messages st)
    /\ idCounter (snd (put_message clk i body st)) = idCounter st.
Proof.
  intros clk i body st. unfold put_message.
  destruct (destructure_content body); [now split|].
  destruct (rejected _); [now split|].
  destruct (JSMap.get i (messages st)) as [old|] eqn:G; [|now split].
  cbn [snd messages idCounter]. split; [|reflexivity].
  now apply keys_set_present with old.
Qed.

(** X16.  Two creates with valid content in a well-formed store whose
    counter is below 2^53 are both answered with 201, and the list that
    follows is the earlier list with the two new messages after it, in the
    order of their creation. *)
Theorem two_creates_listed_in_order :
  forall clk1 clk2 body1 body2 s1 s2 st,
    destructure_content body1 = inr (VString s1) -> trim s1 <> [] ->
    destructure_content body2 = inr (VString s2) -> trim s2 <> [] ->
    store_ok st -> idCounter st < two53 ->
    exists m1 m2,
      fst (post_messages clk1 body1 st) = Reply 201 (POne m1)
      /\ fst (post_messages clk2 body2 (snd (post_messages clk1 body1 st)))
         = Reply 201 (POne m2)
      /\ content m1 = VString s1 /\ content m2 = VString s2
      /\ id m1 <> id m2
      /\ fst (get_messages
                (snd (post_messages clk2 body2
                        (snd (post_messages clk1 body1 st)))))
         = Reply 200 (PAll (JSMap.values (messages st) ++ [m1; m2])).
Proof.
  intros clk1 clk2 body1 body2 s1 s2 st D1 T1 D2 T2 OK B.
  assert (R1 : rejected (VString s1) = false).
  { apply rejected_false_iff. now exists s1. }
  assert (R2 : rejected (VString s2) = false).
  { apply rejected_false_iff. now exists s2. }
  pose proof (store_ok_create clk1 _ _ _ D1 R1 OK B) as OK1.
  pose proof (store_ok_fresh (Date_now clk1) st OK) as F1.
  pose proof (store_ok_fresh (Date_now clk2) _ OK1) as F2.
  rewrite (post_accepts clk1 _ _ _ D1 R1) in *. cbn [snd] in *.
  rewrite (post_accepts clk2 _ _ _ D2 R2). cbn [snd fst idCounter] in *.
  eexists. eexists.
  split; [reflexivity|]. split; [reflexivity|].
  split; [reflexivity|]. split; [reflexivity|]. split.
  - cbn [id]. intros E. apply make_id_counter_inj in E.
    rewrite number_succ_below in E by exact B. lia.
  - unfold get_messages. cbn [fst messages] in *.
    rewrite (set_absent _ _ _ F2), (set_absent _ _ _ F1).
    unfold JSMap.values. rewrite !map_app, <- app_assoc. reflexivity.
Qed.

Lemma two_creates_listed_in_order_witness :
  exists m1 m2,
    fst (post_messages noon hello init) = Reply 201 (POne m1)
    /\ fst (post_messages later
              (withContent (VString (lit "Second message")))
              (snd (post_messages noon hello init)))
       = Reply 201 (POne m2)
    /\ id m1 <> id m2.
Proof.
  destruct (two_creates_listed_in_order noon later hello
              (withContent (VString (lit "Second message")))
              (lit "Hello, World!") (lit "Second message") init
              eq_refl ltac:(discriminate) eq_refl ltac:(discriminate)
              store_ok_init ltac:(reflexivity))
    as (m1 & m2 & E1 & E2 & _ & _ & NE & _).
  exists m1, m2. split; [exact E1|]. split; [exact E2 | exact NE].
Defined.

(** X17.  The list and the single read agree: in every reachable state a
    message is in the list of GET /messages exactly when GET /messages/:id
    with its id returns it. *)
Theorem list_and_get_agree :
  forall st m,
    reachable st ->
    (In m (JSMap.values (messages st)) <->
       get_message (id m) st = (Reply 200 (POne m), st)).
Proof.
  intros st m R. destruct (reachable_keyed st R) as [ND K].
  unfold get_message. split.
  - intros H. unfold JSMap.values in H.
    apply in_map_iff in H as ([k m0] & E & H). simpl in E. subst m0.
    rewrite (K _ _ H). now rewrite (get_of_in _ _ _ _ ND H).
  - destruct (JSMap.get (id m) (messages st)) as [m0|] eqn:G;
      [|discriminate].
    intros E. injection E as ->. apply get_in in G.
    unfold JSMap.values. apply in_map_iff. now exists (id m, m).
Qed.

Lemma list_and_get_agree_witness :
  get_message firstId one_message
    = (Reply 200
         (POne {| id := firstId; content := VString (lit "Hello, World!");
                  createdAt := toISOString noon;
                  updatedAt := toISOString noon |}), one_message).
Proof.
  apply (proj1 (list_and_get_agree one_message
                  {| id := firstId; content := VString (lit "Hello, World!");
                     createdAt := toISOString noon;
                     updatedAt := toISOString noon |}
                  (reachable_step noon (POST_messages hello) init
                     reachable_init))).
  left. reflexivity.
Defined.

End Extras.
